(** * The authenticated request pipeline of insights_sdk

    A shallow embedding of [src/insights_sdk/auth.py] (token manager) and of
    the request executor of [src/insights_sdk/client.py], in their blocking
    and their asyncio variants, followed by the properties of the
    specification that concern them.

    Conventions of the embedding.
    - Python [int] is [Z]; Python [float] is an exact rational [Q]
      (rounding, infinities and NaN are not represented).
    - A parsed JSON document is a [json] value; Python's [None] is [JNull].
    - Code that can raise returns a [result]; the mutable object ([self])
      and the outside world are threaded explicitly, and they keep the
      changes made before an exception was raised, as in Python.
    - The two HTTP servers are oracles indexed by the number of requests
      they have already received. *)

From Stdlib Require Import ZArith QArith Qabs Lqa List Ascii String Bool Lia.
Import ListNotations.

Local Open Scope Z_scope.

(** ** Python values *)

#[local] Set Warnings "-register-all".

Inductive json : Type :=
| JNull
| JBool (b : bool)
| JInt (z : Z)
| JFloat (q : Q)
| JStr (s : string)
| JList (l : list json)
| JDict (d : list (string * json)).

Definition Qltb (x y : Q) : bool :=
  (Qnum x * QDen y <? Qnum y * QDen x)%Z.

(** [bool(v)], the truth value Python gives an object. *)
Definition truthy (v : json) : bool :=
  match v with
  | JNull => false
  | JBool b => b
  | JInt z => negb (z =? 0)
  | JFloat q => negb (Qeq_bool q 0)
  | JStr s => negb (String.eqb s EmptyString)
  | JList l => match l with [] => false | _ :: _ => true end
  | JDict d => match d with [] => false | _ :: _ => true end
  end.

(** ** Exceptions *)

Inductive exn : Type :=
(* the five classes of RETRYABLE_EXCEPTIONS *)
| ConnectTimeout
| ReadTimeout
| WriteTimeout
| ConnectError
| RemoteProtocolError
(* the other transport errors of httpx *)
| PoolTimeout
| ReadError
| WriteError
| CloseError
| LocalProtocolError
| ProxyError
| UnsupportedProtocol
(* raised by Response.raise_for_status *)
| HTTPStatusError (status : Z)
(* raised by Response.json *)
| JSONDecodeError
(* builtins *)
| KeyError (key : string)
| TypeError
| AttributeError
| ValueError
| OverflowError
| RuntimeError (msg : string).

Inductive result (A : Type) : Type :=
| Return (a : A)
| Raise (e : exn).
Arguments Return {A} a.
Arguments Raise {A} e.

(** What one pass through the body of a [try] inside a [for] loop does:
    [continue], [return v], or leave by an exception. *)
Inductive flow (A : Type) : Type :=
| Continue
| Returned (a : A)
| Raised (e : exn).
Arguments Continue {A}.
Arguments Returned {A} a.
Arguments Raised {A} e.

(** ** HTTP and the outside world *)

Record Response : Type := {
  status_code : Z;
  body : option json   (* [None]: the body is not a JSON document *)
}.

Inductive reply : Type :=
| Responds (response : Response)
| Fails (e : exn).

Record exchange : Type := {
  elapsed : Q;         (* wall-clock time the exchange took *)
  outcome : reply
}.

Record network : Type := {
  auth_server : nat -> exchange;
  (* the resource server sees the bearer token of the request *)
  api_server : nat -> json -> exchange
}.

Record world : Type := {
  now : Q;               (* what [time.time()] returns *)
  auth_calls : nat;      (* requests sent to the token endpoint so far *)
  api_calls : nat;       (* requests sent to the resource endpoint so far *)
  slept : list Q         (* arguments of the completed sleeps, oldest first *)
}.

Definition advance (d : Q) (w : world) : world :=
  {| now := (now w + d)%Q; auth_calls := auth_calls w;
     api_calls := api_calls w; slept := slept w |}.

Definition record_sleep (d : Q) (w : world) : world :=
  {| now := now w; auth_calls := auth_calls w;
     api_calls := api_calls w; slept := slept w ++ [d] |}.

Definition post_auth (net : network) (w : world) : reply * world :=
  let x := auth_server net (auth_calls w) in
  (outcome x,
   {| now := (now w + elapsed x)%Q; auth_calls := S (auth_calls w);
      api_calls := api_calls w; slept := slept w |}).

Definition post_api (net : network) (token : json) (w : world) : reply * world :=
  let x := api_server net (api_calls w) token in
  (outcome x,
   {| now := (now w + elapsed x)%Q; auth_calls := auth_calls w;
      api_calls := S (api_calls w); slept := slept w |}).

(** [time.sleep(d)]: raises ValueError on a negative argument. *)
Definition time_sleep (d : Q) (w : world) : result unit * world :=
  if Qltb d 0 then (Raise ValueError, w)
  else (Return tt, record_sleep d (advance d w)).

(** [await asyncio.sleep(d)]: never raises; on a negative argument it
    returns at once, and no time passes. *)
Definition asyncio_sleep (d : Q) (w : world) : world :=
  record_sleep d (if Qltb d 0 then w else advance d w).

(** [Response.raise_for_status()] of httpx: nothing on a 2xx status,
    HTTPStatusError otherwise. *)
Definition is_success (status : Z) : bool :=
  (200 <=? status) && (status <=? 299).

Definition raise_for_status (response : Response) : option exn :=
  if is_success (status_code response) then None
  else Some (HTTPStatusError (status_code response)).

(** [Response.json()]. *)
Definition response_json (response : Response) : result json :=
  match body response with
  | Some data => Return data
  | None => Raise JSONDecodeError
  end.

Fixpoint assoc (key : string) (d : list (string * json)) : option json :=
  match d with
  | [] => None
  | (k, v) :: d' => if String.eqb key k then Some v else assoc key d'
  end.

(** [data[key]]. *)
Definition getitem (data : json) (key : string) : result json :=
  match data with
  | JDict d =>
      match assoc key d with
      | Some v => Return v
      | None => Raise (KeyError key)
      end
  | _ => Raise TypeError
  end.

(** [data.get(key, default)]. *)
Definition get (data : json) (key : string) (default : json) : result json :=
  match data with
  | JDict d =>
      match assoc key d with
      | Some v => Return v
      | None => Return default
      end
  | _ => Raise AttributeError
  end.

(** [x + v] for a float [x]. *)
Definition float_add (x : Q) (v : json) : result Q :=
  match v with
  | JInt z => Return (x + inject_Z z)%Q
  | JFloat q => Return (x + q)%Q
  | JBool b => Return (x + (if b then 1 else 0))%Q
  | _ => Raise TypeError
  end.

(** [range(n)]. *)
Definition range (n : Z) : list Z :=
  map Z.of_nat (seq 0 (Z.to_nat n)).

(** * auth.py *)

Module auth.

Definition DEFAULT_MAX_RETRIES : Z := 3.
Definition DEFAULT_RETRY_BACKOFF : Q := 1.

Definition RETRYABLE_EXCEPTIONS (e : exn) : bool :=
  match e with
  | ConnectTimeout | ReadTimeout | WriteTimeout
  | ConnectError | RemoteProtocolError => true
  | _ => false
  end.

Definition RETRYABLE_STATUS_CODES : list Z := [429; 500; 502; 503; 504].

(** [status in RETRYABLE_STATUS_CODES]. *)
Definition retryable_status (status : Z) : bool :=
  existsb (Z.eqb status) RETRYABLE_STATUS_CODES.

(** [self.retry_backoff * (2 ** attempt)]. *)
Definition backoff_delay (retry_backoff : Q) (attempt : Z) : Q :=
  (retry_backoff * inject_Z (2 ^ attempt))%Q.

Record TokenResponse : Type := {
  access_token : json;
  token_type : json;
  expires_in : json;
  scope : json
}.

(** The call [TokenResponse(access_token=data["access_token"], ...)] of
    [AuthClient._refresh_token]; the dataclass does not check field types. *)
Definition parse_token_response (data : json) : result TokenResponse :=
  match getitem data "access_token" with
  | Raise e => Raise e
  | Return v_token =>
  match get data "token_type" (JStr "Bearer") with
  | Raise e => Raise e
  | Return v_type =>
  match get data "expires_in" (JInt 900) with
  | Raise e => Raise e
  | Return v_expires =>
  match get data "scope" (JStr EmptyString) with
  | Raise e => Raise e
  | Return v_scope =>
      Return {| access_token := v_token; token_type := v_type;
                expires_in := v_expires; scope := v_scope |}
  end end end end.

(** ** class AuthClient *)

Module AuthClient.

(** The credentials, the URL and the timeout only shape the request, which
    the oracle does not inspect; the record keeps the fields the control
    flow reads or writes. *)
Record t : Type := {
  max_retries : Z;
  retry_backoff : Q;
  _access_token : json;
  _token_expiry : Q
}.

Definition __init__ (max_retries : Z) (retry_backoff : Q) : t :=
  {| max_retries := max_retries; retry_backoff := retry_backoff;
     _access_token := JNull; _token_expiry := 0 |}.

Definition set_access_token (v : json) (self : t) : t :=
  {| max_retries := max_retries self; retry_backoff := retry_backoff self;
     _access_token := v; _token_expiry := _token_expiry self |}.

Definition set_token_expiry (x : Q) (self : t) : t :=
  {| max_retries := max_retries self; retry_backoff := retry_backoff self;
     _access_token := _access_token self; _token_expiry := x |}.

Definition is_token_valid (self : t) (w : world) : bool :=
  if negb (truthy (_access_token self)) then false
  else Qltb (now w) (_token_expiry self - 60)%Q.

(** The body of the [try] of [_refresh_token]. *)
Definition _refresh_token_try (net : network) (attempt : Z) (self : t) (w : world)
  : flow json * t * world :=
  let (r, w) := post_auth net w in
  match r with
  | Fails e => (Raised e, self, w)
  | Responds response =>
      let rest (_ : unit) :=
        match raise_for_status response with
        | Some e => (Raised e, self, w)
        | None =>
        match response_json response with
        | Raise e => (Raised e, self, w)
        | Return data =>
        match parse_token_response data with
        | Raise e => (Raised e, self, w)
        | Return token_response =>
            let self := set_access_token (access_token token_response) self in
            match float_add (now w) (expires_in token_response) with
            | Raise e => (Raised e, self, w)
            | Return expiry =>
                let self := set_token_expiry expiry self in
                (Returned (_access_token self), self, w)
            end
        end end end in
      if retryable_status (status_code response) then
        if attempt <? max_retries self then
          let backoff := backoff_delay (retry_backoff self) attempt in
          match time_sleep backoff w with
          | (Raise e, w) => (Raised e, self, w)
          | (Return _, w) => (Continue, self, w)
          end
        else rest tt
      else rest tt
  end.

(** The [for attempt in range(self.max_retries + 1)] loop of
    [_refresh_token], with the statements that follow it. *)
Fixpoint _refresh_token_loop (net : network) (attempts : list Z)
    (last_exception : option exn) (self : t) (w : world)
  : result json * t * world :=
  match attempts with
  | [] =>
      match last_exception with
      | Some e => (Raise e, self, w)
      | None => (Raise (RuntimeError "Token refresh failed unexpectedly"), self, w)
      end
  | attempt :: attempts =>
      match _refresh_token_try net attempt self w with
      | (Continue, self, w) =>
          _refresh_token_loop net attempts last_exception self w
      | (Returned v, self, w) => (Return v, self, w)
      | (Raised e, self, w) =>
          if RETRYABLE_EXCEPTIONS e then
            let last_exception := Some e in
            if attempt <? max_retries self then
              let backoff := backoff_delay (retry_backoff self) attempt in
              match time_sleep backoff w with
              | (Raise e', w) => (Raise e', self, w)
              | (Return _, w) =>
                  _refresh_token_loop net attempts last_exception self w
              end
            else (Raise e, self, w)
          else (Raise e, self, w)
      end
  end.

Definition _refresh_token (net : network) (self : t) (w : world)
  : result json * t * world :=
  _refresh_token_loop net (range (max_retries self + 1)) None self w.

Definition get_token (net : network) (self : t) (w : world)
  : result json * t * world :=
  if is_token_valid self w then (Return (_access_token self), self, w)
  else _refresh_token net self w.

Definition invalidate_token (self : t) : t :=
  set_token_expiry 0 (set_access_token JNull self).

End AuthClient.

(** ** class AsyncAuthClient *)

Module AsyncAuthClient.

Record t : Type := {
  max_retries : Z;
  retry_backoff : Q;
  _access_token : json;
  _token_expiry : Q
}.

Definition __init__ (max_retries : Z) (retry_backoff : Q) : t :=
  {| max_retries := max_retries; retry_backoff := retry_backoff;
     _access_token := JNull; _token_expiry := 0 |}.

Definition set_access_token (v : json) (self : t) : t :=
  {| max_retries := max_retries self; retry_backoff := retry_backoff self;
     _access_token := v; _token_expiry := _token_expiry self |}.

Definition set_token_expiry (x : Q) (self : t) : t :=
  {| max_retries := max_retries self; retry_backoff := retry_backoff self;
     _access_token := _access_token self; _token_expiry := x |}.

Definition is_token_valid (self : t) (w : world) : bool :=
  if negb (truthy (_access_token self)) then false
  else Qltb (now w) (_token_expiry self - 60)%Q.

(** The body of the [try] of the coroutine [_refresh_token]: the token and
    the expiry are stored straight from [data], without a TokenResponse. *)
Definition _refresh_token_try (net : network) (attempt : Z) (self : t) (w : world)
  : flow json * t * world :=
  let (r, w) := post_auth net w in
  match r with
  | Fails e => (Raised e, self, w)
  | Responds response =>
      let rest (_ : unit) :=
        match raise_for_status response with
        | Some e => (Raised e, self, w)
        | None =>
        match response_json response with
        | Raise e => (Raised e, self, w)
        | Return data =>
        match getitem data "access_token" with
        | Raise e => (Raised e, self, w)
        | Return v_token =>
            let self := set_access_token v_token self in
            match get data "expires_in" (JInt 900) with
            | Raise e => (Raised e, self, w)
            | Return v_expires =>
            match float_add (now w) v_expires with
            | Raise e => (Raised e, self, w)
            | Return expiry =>
                let self := set_token_expiry expiry self in
                (Returned (_access_token self), self, w)
            end end
        end end end in
      if retryable_status (status_code response) then
        if attempt <? max_retries self then
          let backoff := backoff_delay (retry_backoff self) attempt in
          (Continue, self, asyncio_sleep backoff w)
        else rest tt
      else rest tt
  end.

Fixpoint _refresh_token_loop (net : network) (attempts : list Z)
    (last_exception : option exn) (self : t) (w : world)
  : result json * t * world :=
  match attempts with
  | [] =>
      match last_exception with
      | Some e => (Raise e, self, w)
      | None => (Raise (RuntimeError "Token refresh failed unexpectedly"), self, w)
      end
  | attempt :: attempts =>
      match _refresh_token_try net attempt self w with
      | (Continue, self, w) =>
          _refresh_token_loop net attempts last_exception self w
      | (Returned v, self, w) => (Return v, self, w)
      | (Raised e, self, w) =>
          if RETRYABLE_EXCEPTIONS e then
            let last_exception := Some e in
            if attempt <? max_retries self then
              let backoff := backoff_delay (retry_backoff self) attempt in
              _refresh_token_loop net attempts last_exception self
                (asyncio_sleep backoff w)
            else (Raise e, self, w)
          else (Raise e, self, w)
      end
  end.

Definition _refresh_token (net : network) (self : t) (w : world)
  : result json * t * world :=
  _refresh_token_loop net (range (max_retries self + 1)) None self w.

Definition get_token (net : network) (self : t) (w : world)
  : result json * t * world :=
  if is_token_valid self w then (Return (_access_token self), self, w)
  else _refresh_token net self w.

Definition invalidate_token (self : t) : t :=
  set_token_expiry 0 (set_access_token JNull self).

End AsyncAuthClient.

End auth.

(** * client.py: the request executor *)

Module client.

Import auth.

(** ** class InsightsClient *)

Module InsightsClient.

(** [_client] records whether the lazily created httpx.Client exists; the
    URL, the region and the timeout only shape the request. *)
Record t : Type := {
  max_retries : Z;
  retry_backoff : Q;
  _auth : AuthClient.t;
  _client : bool
}.

(** [__init__] hands its own retry settings to the AuthClient it builds. *)
Definition __init__ (max_retries : Z) (retry_backoff : Q) : t :=
  {| max_retries := max_retries; retry_backoff := retry_backoff;
     _auth := AuthClient.__init__ max_retries retry_backoff;
     _client := false |}.

Definition set_auth (a : AuthClient.t) (self : t) : t :=
  {| max_retries := max_retries self; retry_backoff := retry_backoff self;
     _auth := a; _client := _client self |}.

Definition set_client (b : bool) (self : t) : t :=
  {| max_retries := max_retries self; retry_backoff := retry_backoff self;
     _auth := _auth self; _client := b |}.

Definition _get_client (self : t) : t :=
  if _client self then self else set_client true self.

(** The headers differ from call to call only in the bearer token, which
    stands for them. *)
Definition _get_headers (net : network) (self : t) (w : world)
  : result json * t * world :=
  match AuthClient.get_token net (_auth self) w with
  | (r, a, w) => (r, set_auth a self, w)
  end.

(** The body of the [try] of [_post]: the client is fetched first, then the
    headers are built (which asks for the token), then the request goes out. *)
Definition _post_try (net : network) (attempt : Z) (self : t) (w : world)
  : flow json * t * world :=
  let self := _get_client self in
  match _get_headers net self w with
  | (Raise e, self, w) => (Raised e, self, w)
  | (Return headers, self, w) =>
  let (r, w) := post_api net headers w in
  match r with
  | Fails e => (Raised e, self, w)
  | Responds response =>
      let rest (_ : unit) :=
        match raise_for_status response with
        | Some e => (Raised e, self, w)
        | None =>
        match response_json response with
        | Raise e => (Raised e, self, w)
        | Return data => (Returned data, self, w)
        end end in
      if retryable_status (status_code response) then
        if attempt <? max_retries self then
          let backoff := backoff_delay (retry_backoff self) attempt in
          match time_sleep backoff w with
          | (Raise e, w) => (Raised e, self, w)
          | (Return _, w) => (Continue, self, w)
          end
        else rest tt
      else rest tt
  end end.

Fixpoint _post_loop (net : network) (attempts : list Z)
    (last_exception : option exn) (self : t) (w : world)
  : result json * t * world :=
  match attempts with
  | [] =>
      match last_exception with
      | Some e => (Raise e, self, w)
      | None => (Raise (RuntimeError "API request failed unexpectedly"), self, w)
      end
  | attempt :: attempts =>
      match _post_try net attempt self w with
      | (Continue, self, w) => _post_loop net attempts last_exception self w
      | (Returned v, self, w) => (Return v, self, w)
      | (Raised e, self, w) =>
          if RETRYABLE_EXCEPTIONS e then
            let last_exception := Some e in
            if attempt <? max_retries self then
              let backoff := backoff_delay (retry_backoff self) attempt in
              match time_sleep backoff w with
              | (Raise e', w) => (Raise e', self, w)
              | (Return _, w) => _post_loop net attempts last_exception self w
              end
            else (Raise e, self, w)
          else (Raise e, self, w)
      end
  end.

Definition _post (net : network) (self : t) (w : world)
  : result json * t * world :=
  _post_loop net (range (max_retries self + 1)) None self w.

Definition close (self : t) : t :=
  if _client self then set_client false self else self.

End InsightsClient.

(** ** class AsyncInsightsClient *)

Module AsyncInsightsClient.

Record t : Type := {
  max_retries : Z;
  retry_backoff : Q;
  _auth : AsyncAuthClient.t;
  _client : bool
}.

Definition __init__ (max_retries : Z) (retry_backoff : Q) : t :=
  {| max_retries := max_retries; retry_backoff := retry_backoff;
     _auth := AsyncAuthClient.__init__ max_retries retry_backoff;
     _client := false |}.

Definition set_auth (a : AsyncAuthClient.t) (self : t) : t :=
  {| max_retries := max_retries self; retry_backoff := retry_backoff self;
     _auth := a; _client := _client self |}.

Definition set_client (b : bool) (self : t) : t :=
  {| max_retries := max_retries self; retry_backoff := retry_backoff self;
     _auth := _auth self; _client := b |}.

Definition _get_client (self : t) : t :=
  if _client self then self else set_client true self.

Definition _get_headers (net : network) (self : t) (w : world)
  : result json * t * world :=
  match AsyncAuthClient.get_token net (_auth self) w with
  | (r, a, w) => (r, set_auth a self, w)
  end.

Definition _post_try (net : network) (attempt : Z) (self : t) (w : world)
  : flow json * t * world :=
  let self := _get_client self in
  match _get_headers net self w with
  | (Raise e, self, w) => (Raised e, self, w)
  | (Return headers, self, w) =>
  let (r, w) := post_api net headers w in
  match r with
  | Fails e => (Raised e, self, w)
  | Responds response =>
      let rest (_ : unit) :=
        match raise_for_status response with
        | Some e => (Raised e, self, w)
        | None =>
        match response_json response with
        | Raise e => (Raised e, self, w)
        | Return data => (Returned data, self, w)
        end end in
      if retryable_status (status_code response) then
        if attempt <? max_retries self then
          let backoff := backoff_delay (retry_backoff self) attempt in
          (Continue, self, asyncio_sleep backoff w)
        else rest tt
      else rest tt
  end end.

Fixpoint _post_loop (net : network) (attempts : list Z)
    (last_exception : option exn) (self : t) (w : world)
  : result json * t * world :=
  match attempts with
  | [] =>
      match last_exception with
      | Some e => (Raise e, self, w)
      | None =>
          (Raise (RuntimeError "Async API request failed unexpectedly"), self, w)
      end
  | attempt :: attempts =>
      match _post_try net attempt self w with
      | (Continue, self, w) => _post_loop net attempts last_exception self w
      | (Returned v, self, w) => (Return v, self, w)
      | (Raised e, self, w) =>
          if RETRYABLE_EXCEPTIONS e then
            let last_exception := Some e in
            if attempt <? max_retries self then
              let backoff := backoff_delay (retry_backoff self) attempt in
              _post_loop net attempts last_exception self
                (asyncio_sleep backoff w)
            else (Raise e, self, w)
          else (Raise e, self, w)
      end
  end.

Definition _post (net : network) (self : t) (w : world)
  : result json * t * world :=
  _post_loop net (range (max_retries self + 1)) None self w.

Definition close (self : t) : t :=
  if _client self then set_client false self else self.

End AsyncInsightsClient.

End client.

(** * The loops with the range errors of CPython

    The modules [auth] and [client] above compute with numbers that have no
    range: every integer has a float, every delay can be slept. CPython has
    three places on the paths of the loops where a number out of range
    raises OverflowError:
    - an [int] becomes a [float] (in [time.time() + expires_in] and in
      [retry_backoff * (2 ** attempt)]) only below 2^1024 - 2^970;
    - [time.sleep] takes at most 2^63 nanoseconds, about 9.22e9 seconds
      ([asyncio.sleep] has no such bound).
    Module [checked] repeats the four loops and their callers with these
    errors. The objects are those of [auth] and [client]. Rounding is still
    not represented. The two versions agree on every run that stays in
    range (lemmas [refresh_agrees], [post_agrees] and their asyncio
    counterparts below). *)

Module checked.

(** [float(z)] exists. *)
Definition float_of_int_ok (z : Z) : bool :=
  Z.abs z <? 2 ^ 1024 - 2 ^ 970.

(** [x + v] for a float [x]. *)
Definition float_add (x : Q) (v : json) : result Q :=
  match v with
  | JInt z =>
      if float_of_int_ok z then Return (x + inject_Z z)%Q
      else Raise OverflowError
  | JFloat q => Return (x + q)%Q
  | JBool b => Return (x + (if b then 1 else 0))%Q
  | _ => Raise TypeError
  end.

(** [self.retry_backoff * (2 ** attempt)]: the power is an [int] and has to
    become a [float]. *)
Definition backoff (retry_backoff : Q) (attempt : Z) : result Q :=
  if float_of_int_ok (2 ^ attempt)
  then Return (auth.backoff_delay retry_backoff attempt)
  else Raise OverflowError.

(** The delays [time.sleep] can turn into nanoseconds. *)
Definition sleep_in_range (d : Q) : bool :=
  Qle_bool (Qabs d * inject_Z (10 ^ 9)) (inject_Z (2 ^ 63)).

(** [time.sleep(d)]: OverflowError out of range, ValueError when negative. *)
Definition time_sleep (d : Q) (w : world) : result unit * world :=
  if negb (sleep_in_range d) then (Raise OverflowError, w)
  else if Qltb d 0 then (Raise ValueError, w)
  else (Return tt, record_sleep d (advance d w)).

(** ** class AuthClient *)

Module AuthClient.

Definition _refresh_token_try (net : network) (attempt : Z)
    (self : auth.AuthClient.t) (w : world)
  : flow json * auth.AuthClient.t * world :=
  let (r, w) := post_auth net w in
  match r with
  | Fails e => (Raised e, self, w)
  | Responds response =>
      let rest (_ : unit) :=
        match raise_for_status response with
        | Some e => (Raised e, self, w)
        | None =>
        match response_json response with
        | Raise e => (Raised e, self, w)
        | Return data =>
        match auth.parse_token_response data with
        | Raise e => (Raised e, self, w)
        | Return token_response =>
            let self :=
              auth.AuthClient.set_access_token
                (auth.access_token token_response) self in
            match float_add (now w) (auth.expires_in token_response) with
            | Raise e => (Raised e, self, w)
            | Return expiry =>
                let self := auth.AuthClient.set_token_expiry expiry self in
                (Returned (auth.AuthClient._access_token self), self, w)
            end
        end end end in
      if auth.retryable_status (status_code response) then
        if attempt <? auth.AuthClient.max_retries self then
          match backoff (auth.AuthClient.retry_backoff self) attempt with
          | Raise e => (Raised e, self, w)
          | Return backoff =>
              match time_sleep backoff w with
              | (Raise e, w) => (Raised e, self, w)
              | (Return _, w) => (Continue, self, w)
              end
          end
        else rest tt
      else rest tt
  end.

Fixpoint _refresh_token_loop (net : network) (attempts : list Z)
    (last_exception : option exn) (self : auth.AuthClient.t) (w : world)
  : result json * auth.AuthClient.t * world :=
  match attempts with
  | [] =>
      match last_exception with
      | Some e => (Raise e, self, w)
      | None => (Raise (RuntimeError "Token refresh failed unexpectedly"), self, w)
      end
  | attempt :: attempts =>
      match _refresh_token_try net attempt self w with
      | (Continue, self, w) =>
          _refresh_token_loop net attempts last_exception self w
      | (Returned v, self, w) => (Return v, self, w)
      | (Raised e, self, w) =>
          if auth.RETRYABLE_EXCEPTIONS e then
            let last_exception := Some e in
            if attempt <? auth.AuthClient.max_retries self then
              match backoff (auth.AuthClient.retry_backoff self) attempt with
              | Raise e' => (Raise e', self, w)
              | Return backoff =>
                  match time_sleep backoff w with
                  | (Raise e', w) => (Raise e', self, w)
                  | (Return _, w) =>
                      _refresh_token_loop net attempts last_exception self w
                  end
              end
            else (Raise e, self, w)
          else (Raise e, self, w)
      end
  end.

Definition _refresh_token (net : network) (self : auth.AuthClient.t) (w : world)
  : result json * auth.AuthClient.t * world :=
  _refresh_token_loop net (range (auth.AuthClient.max_retries self + 1)) None
    self w.

Definition get_token (net : network) (self : auth.AuthClient.t) (w : world)
  : result json * auth.AuthClient.t * world :=
  if auth.AuthClient.is_token_valid self w
  then (Return (auth.AuthClient._access_token self), self, w)
  else _refresh_token net self w.

End AuthClient.

(** ** class AsyncAuthClient *)

Module AsyncAuthClient.

Definition _refresh_token_try (net : network) (attempt : Z)
    (self : auth.AsyncAuthClient.t) (w : world)
  : flow json * auth.AsyncAuthClient.t * world :=
  let (r, w) := post_auth net w in
  match r with
  | Fails e => (Raised e, self, w)
  | Responds response =>
      let rest (_ : unit) :=
        match raise_for_status response with
        | Some e => (Raised e, self, w)
        | None =>
        match response_json response with
        | Raise e => (Raised e, self, w)
        | Return data =>
        match getitem data "access_token" with
        | Raise e => (Raised e, self, w)
        | Return v_token =>
            let self := auth.AsyncAuthClient.set_access_token v_token self in
            match get data "expires_in" (JInt 900) with
            | Raise e => (Raised e, self, w)
            | Return v_expires =>
            match float_add (now w) v_expires with
            | Raise e => (Raised e, self, w)
            | Return expiry =>
                let self := auth.AsyncAuthClient.set_token_expiry expiry self in
                (Returned (auth.AsyncAuthClient._access_token self), self, w)
            end end
        end end end in
      if auth.retryable_status (status_code response) then
        if attempt <? auth.AsyncAuthClient.max_retries self then
          match backoff (auth.AsyncAuthClient.retry_backoff self) attempt with
          | Raise e => (Raised e, self, w)
          | Return backoff => (Continue, self, asyncio_sleep backoff w)
          end
        else rest tt
      else rest tt
  end.

Fixpoint _refresh_token_loop (net : network) (attempts : list Z)
    (last_exception : option exn) (self : auth.AsyncAuthClient.t) (w : world)
  : result json * auth.AsyncAuthClient.t * world :=
  match attempts with
  | [] =>
      match last_exception with
      | Some e => (Raise e, self, w)
      | None => (Raise (RuntimeError "Token refresh failed unexpectedly"), self, w)
      end
  | attempt :: attempts =>
      match _refresh_token_try net attempt self w with
      | (Continue, self, w) =>
          _refresh_token_loop net attempts last_exception self w
      | (Returned v, self, w) => (Return v, self, w)
      | (Raised e, self, w) =>
          if auth.RETRYABLE_EXCEPTIONS e then
            let last_exception := Some e in
            if attempt <? auth.AsyncAuthClient.max_retries self then
              match backoff (auth.AsyncAuthClient.retry_backoff self) attempt with
              | Raise e' => (Raise e', self, w)
              | Return backoff =>
                  _refresh_token_loop net attempts last_exception self
                    (asyncio_sleep backoff w)
              end
            else (Raise e, self, w)
          else (Raise e, self, w)
      end
  end.

Definition _refresh_token (net : network) (self : auth.AsyncAuthClient.t)
    (w : world) : result json * auth.AsyncAuthClient.t * world :=
  _refresh_token_loop net (range (auth.AsyncAuthClient.max_retries self + 1))
    None self w.

Definition get_token (net : network) (self : auth.AsyncAuthClient.t) (w : world)
  : result json * auth.AsyncAuthClient.t * world :=
  if auth.AsyncAuthClient.is_token_valid self w
  then (Return (auth.AsyncAuthClient._access_token self), self, w)
  else _refresh_token net self w.

End AsyncAuthClient.

(** ** class InsightsClient *)

Module InsightsClient.

Definition _get_headers (net : network) (self : client.InsightsClient.t)
    (w : world) : result json * client.InsightsClient.t * world :=
  match AuthClient.get_token net (client.InsightsClient._auth self) w with
  | (r, a, w) => (r, client.InsightsClient.set_auth a self, w)
  end.

Definition _post_try (net : network) (attempt : Z)
    (self : client.InsightsClient.t) (w : world)
  : flow json * client.InsightsClient.t * world :=
  let self := client.InsightsClient._get_client self in
  match _get_headers net self w with
  | (Raise e, self, w) => (Raised e, self, w)
  | (Return headers, self, w) =>
  let (r, w) := post_api net headers w in
  match r with
  | Fails e => (Raised e, self, w)
  | Responds response =>
      let rest (_ : unit) :=
        match raise_for_status response with
        | Some e => (Raised e, self, w)
        | None =>
        match response_json response with
        | Raise e => (Raised e, self, w)
        | Return data => (Returned data, self, w)
        end end in
      if auth.retryable_status (status_code response) then
        if attempt <? client.InsightsClient.max_retries self then
          match backoff (client.InsightsClient.retry_backoff self) attempt with
          | Raise e => (Raised e, self, w)
          | Return backoff =>
              match time_sleep backoff w with
              | (Raise e, w) => (Raised e, self, w)
              | (Return _, w) => (Continue, self, w)
              end
          end
        else rest tt
      else rest tt
  end end.

Fixpoint _post_loop (net : network) (attempts : list Z)
    (last_exception : option exn) (self : client.InsightsClient.t) (w : world)
  : result json * client.InsightsClient.t * world :=
  match attempts with
  | [] =>
      match last_exception with
      | Some e => (Raise e, self, w)
      | None => (Raise (RuntimeError "API request failed unexpectedly"), self, w)
      end
  | attempt :: attempts =>
      match _post_try net attempt self w with
      | (Continue, self, w) => _post_loop net attempts last_exception self w
      | (Returned v, self, w) => (Return v, self, w)
      | (Raised e, self, w) =>
          if auth.RETRYABLE_EXCEPTIONS e then
            let last_exception := Some e in
            if attempt <? client.InsightsClient.max_retries self then
              match backoff (client.InsightsClient.retry_backoff self) attempt with
              | Raise e' => (Raise e', self, w)
              | Return backoff =>
                  match time_sleep backoff w with
                  | (Raise e', w) => (Raise e', self, w)
                  | (Return _, w) =>
                      _post_loop net attempts last_exception self w
                  end
              end
            else (Raise e, self, w)
          else (Raise e, self, w)
      end
  end.

Definition _post (net : network) (self : client.InsightsClient.t) (w : world)
  : result json * client.InsightsClient.t * world :=
  _post_loop net (range (client.InsightsClient.max_retries self + 1)) None
    self w.

End InsightsClient.

(** ** class AsyncInsightsClient *)

Module AsyncInsightsClient.

Definition _get_headers (net : network) (self : client.AsyncInsightsClient.t)
    (w : world) : result json * client.AsyncInsightsClient.t * world :=
  match AsyncAuthClient.get_token net (client.AsyncInsightsClient._auth self) w with
  | (r, a, w) => (r, client.AsyncInsightsClient.set_auth a self, w)
  end.

Definition _post_try (net : network) (attempt : Z)
    (self : client.AsyncInsightsClient.t) (w : world)
  : flow json * client.AsyncInsightsClient.t * world :=
  let self := client.AsyncInsightsClient._get_client self in
  match _get_headers net self w with
  | (Raise e, self, w) => (Raised e, self, w)
  | (Return headers, self, w) =>
  let (r, w) := post_api net headers w in
  match r with
  | Fails e => (Raised e, self, w)
  | Responds response =>
      let rest (_ : unit) :=
        match raise_for_status response with
        | Some e => (Raised e, self, w)
        | None =>
        match response_json response with
        | Raise e => (Raised e, self, w)
        | Return data => (Returned data, self, w)
        end end in
      if auth.retryable_status (status_code response) then
        if attempt <? client.AsyncInsightsClient.max_retries self then
          match backoff (client.AsyncInsightsClient.retry_backoff self) attempt with
          | Raise e => (Raised e, self, w)
          | Return backoff => (Continue, self, asyncio_sleep backoff w)
          end
        else rest tt
      else rest tt
  end end.

Fixpoint _post_loop (net : network) (attempts : list Z)
    (last_exception : option exn) (self : client.AsyncInsightsClient.t)
    (w : world) : result json * client.AsyncInsightsClient.t * world :=
  match attempts with
  | [] =>
      match last_exception with
      | Some e => (Raise e, self, w)
      | None =>
          (Raise (RuntimeError "Async API request failed unexpectedly"), self, w)
      end
  | attempt :: attempts =>
      match _post_try net attempt self w with
      | (Continue, self, w) => _post_loop net attempts last_exception self w
      | (Returned v, self, w) => (Return v, self, w)
      | (Raised e, self, w) =>
          if auth.RETRYABLE_EXCEPTIONS e then
            let last_exception := Some e in
            if attempt <? client.AsyncInsightsClient.max_retries self then
              match backoff (client.AsyncInsightsClient.retry_backoff self)
                      attempt with
              | Raise e' => (Raise e', self, w)
              | Return backoff =>
                  _post_loop net attempts last_exception self
                    (asyncio_sleep backoff w)
              end
            else (Raise e, self, w)
          else (Raise e, self, w)
      end
  end.

Definition _post (net : network) (self : client.AsyncInsightsClient.t)
    (w : world) : result json * client.AsyncInsightsClient.t * world :=
  _post_loop net (range (client.AsyncInsightsClient.max_retries self + 1)) None
    self w.

End AsyncInsightsClient.

End checked.

(** * models.py *)

Module models.

Inductive Region : Type := AMERICAS | EUROPE | ASIA | APAC.

Definition Region_value (r : Region) : string :=
  match r with
  | AMERICAS => "americas"
  | EUROPE => "europe"
  | ASIA => "asia"
  | APAC => "apac"
  end.

Inductive Operator : Type :=
| IN | NOT_IN | EQUALS | NOT_EQUALS
| GREATER_THAN | LESS_THAN | GREATER_THAN_OR_EQUALS | LESS_THAN_OR_EQUALS
| CONTAINS | NOT_CONTAINS | STARTS_WITH | ENDS_WITH
| LAST_N_HOURS | LAST_N_DAYS | BETWEEN.

Definition Operator_value (op : Operator) : string :=
  match op with
  | IN => "in"
  | NOT_IN => "not_in"
  | EQUALS => "equals"
  | NOT_EQUALS => "not_equals"
  | GREATER_THAN => "greater_than"
  | LESS_THAN => "less_than"
  | GREATER_THAN_OR_EQUALS => "greater_than_or_equals"
  | LESS_THAN_OR_EQUALS => "less_than_or_equals"
  | CONTAINS => "contains"
  | NOT_CONTAINS => "not_contains"
  | STARTS_WITH => "starts_with"
  | ENDS_WITH => "ends_with"
  | LAST_N_HOURS => "last_n_hours"
  | LAST_N_DAYS => "last_n_days"
  | BETWEEN => "between"
  end.

(** What the [operator] attribute of a FilterRule holds: a member of
    Operator or a plain string ([_build_query_body] asks which with
    isinstance). *)
Inductive operator_field : Type :=
| Member (op : Operator)
| Plain (s : string).

Record FilterRule : Type := {
  property : string;
  operator : operator_field;
  values : list json
}.

(** [FilterRule(property=..., operator=..., values=...)] for an Operator
    member: the model is declared with use_enum_values, which stores the
    value of the member. *)
Definition new_FilterRule (property : string) (operator : Operator)
    (values : list json) : FilterRule :=
  {| property := property; operator := Plain (Operator_value operator);
     values := values |}.

Record QueryFilter : Type := { rules : list FilterRule }.

(** The object is mutated in place and returned; the embedding returns the
    object after the mutation. *)
Record QueryRequest : Type := { filter : option QueryFilter }.

Definition add_filter (self : QueryRequest) (property : string)
    (operator : Operator) (values : list json) : QueryRequest :=
  let self :=
    match filter self with
    | None => {| filter := Some {| rules := [] |} |}
    | Some _ => self
    end in
  match filter self with
  | Some f =>
      {| filter :=
           Some {| rules := rules f ++ [new_FilterRule property operator values] |} |}
  | None => self
  end.

Definition add_time_filter (self : QueryRequest) (hours : Z) : QueryRequest :=
  let self :=
    match filter self with
    | None => {| filter := Some {| rules := [] |} |}
    | Some _ => self
    end in
  match filter self with
  | Some f =>
      {| filter :=
           Some {| rules :=
                     rules f ++ [new_FilterRule "event_time" LAST_N_HOURS
                                   [JInt hours]] |} |}
  | None => self
  end.

End models.

(** * client.py: URLs and request bodies *)

Module requests.

Import models.

Definition DEFAULT_BASE_URL : string := "https://api.strata.paloaltonetworks.com".
Definition API_VERSION : string := "v3.0".

(** [s.rstrip(c)] for a single character [c]. *)
Fixpoint rstrip (c : ascii) (s : string) : string :=
  match s with
  | EmptyString => EmptyString
  | String x s' =>
      match rstrip c s' with
      | EmptyString => if Ascii.eqb x c then EmptyString else String x EmptyString
      | r => String x r
      end
  end.

(** The [base_url] attribute [__init__] computes:
    [(base_url or self.DEFAULT_BASE_URL).rstrip("/")]. *)
Definition init_base_url (base_url : option string) : string :=
  rstrip "/"
    (match base_url with
     | Some u => if String.eqb u EmptyString then DEFAULT_BASE_URL else u
     | None => DEFAULT_BASE_URL
     end).

Definition _build_url (base_url endpoint : string) : string :=
  (base_url ++ "/insights/" ++ API_VERSION ++ "/resource/" ++ endpoint)%string.

(** The dict one filter contributes to the rules. *)
Definition rule_dict (f : FilterRule) : json :=
  JDict [("property"%string, JStr (property f));
         ("operator"%string,
          JStr (match operator f with
                | Member op => Operator_value op
                | Plain s => s
                end));
         ("values"%string, JList (values f))].

Definition _build_query_body (hours : Z) (filters : option (list FilterRule))
  : json :=
  let rules :=
    [JDict [("property"%string, JStr "event_time");
            ("operator"%string, JStr "last_n_hours");
            ("values"%string, JList [JInt hours])]] in
  let rules :=
    match filters with
    | Some (f :: fs) =>
        fold_left (fun rules f => rules ++ [rule_dict f]) (f :: fs) rules
    | _ => rules
    end in
  JDict [("filter"%string, JDict [("rules"%string, JList rules)])].

(** [d[key] = value] on a dict: an existing key keeps its place. *)
Fixpoint set_assoc (key : string) (value : json) (d : list (string * json))
  : list (string * json) :=
  match d with
  | [] => [(key, value)]
  | (k, v) :: d' =>
      if String.eqb key k then (k, value) :: d'
      else (k, v) :: set_assoc key value d'
  end.

Definition setitem (data : json) (key : string) (value : json) : result json :=
  match data with
  | JDict d => Return (JDict (set_assoc key value d))
  | _ => Raise TypeError
  end.

(** The body [search_sites] hands to [_post]. *)
Definition search_sites_body (search_term : string) (hours : Z)
    (filters : option (list FilterRule)) : result json :=
  let body := _build_query_body hours filters in
  setitem body "search" (JStr search_term).

(** [client.filter(property, operator, values)]. *)
Definition filter (property : string) (operator : Operator)
    (values : list json) : FilterRule :=
  new_FilterRule property operator values.

End requests.

(** * cli.py: helpers *)

Module cli.

Import models.

(** [d.get(key, default)] on a dict. *)
Definition dict_get (d : list (string * json)) (key : string) (default : json)
  : json :=
  match assoc key d with
  | Some v => v
  | None => default
  end.

Definition _extract_data (result : list (string * json)) : list json :=
  let data := dict_get result "data" (dict_get result "items" (JList [])) in
  let data :=
    match data with
    | JDict d =>
        dict_get d "items"
          (dict_get d "users"
             (dict_get d "devices" (dict_get d "applications" (JList []))))
    | _ => data
    end in
  match data with
  | JList l => l
  | _ => []
  end.

(** What [_format_bytes] returns: the literal "0 B", or the text made of
    [value] with one decimal and of [unit]; the number and the unit are
    kept apart, the rounding to one decimal is not represented. *)
Inductive formatted : Type :=
| ZeroBytes
| Formatted (value : Q) (unit : string).

Fixpoint _format_bytes_loop (units : list string) (bytes_val : Q) : formatted :=
  match units with
  | [] => Formatted bytes_val "PB"
  | unit :: units =>
      if Qltb (Qabs bytes_val) 1024 then Formatted bytes_val unit
      else _format_bytes_loop units (bytes_val / 1024)%Q
  end.

Definition _format_bytes (bytes_val : Z) : formatted :=
  if bytes_val =? 0 then ZeroBytes
  else _format_bytes_loop ["B"; "KB"; "MB"; "GB"; "TB"]%string
         (inject_Z bytes_val).

(** [a or b] on Optional[str]. *)
Definition or_else (a b : option string) : option string :=
  match a with
  | Some s => if String.eqb s EmptyString then b else a
  | None => b
  end.

Definition truthy_str (a : option string) : bool :=
  match a with
  | Some s => negb (String.eqb s EmptyString)
  | None => false
  end.

(** [c.lower()] on an ASCII character. *)
Definition lower_ascii (c : ascii) : ascii :=
  let n := nat_of_ascii c in
  if ((65 <=? n) && (n <=? 90))%nat then ascii_of_nat (n + 32) else c.

Fixpoint lower (s : string) : string :=
  match s with
  | EmptyString => EmptyString
  | String c s' => String (lower_ascii c) (lower s')
  end.

(** [Region(value)]: the member with that value, ValueError without one. *)
Definition Region_of (value : string) : option Region :=
  if String.eqb value "americas" then Some AMERICAS
  else if String.eqb value "europe" then Some EUROPE
  else if String.eqb value "asia" then Some ASIA
  else if String.eqb value "apac" then Some APAC
  else None.

Inductive client_or_exit : Type :=
| Client (client_id client_secret tsg_id : string) (region : Region)
| Exit (code : Z)
| RegionValueError.

(** [get_client]: [environ] is [os.environ.get]; the result stands for the
    InsightsClient built from the four values. *)
Definition get_client (environ : string -> option string)
    (client_id client_secret tsg_id : option string) (region : string)
  : client_or_exit :=
  let client_id :=
    or_else (or_else client_id (environ "SCM_CLIENT_ID"%string))
            (environ "INSIGHTS_CLIENT_ID"%string) in
  let client_secret :=
    or_else (or_else client_secret (environ "SCM_CLIENT_SECRET"%string))
            (environ "INSIGHTS_CLIENT_SECRET"%string) in
  let tsg_id :=
    or_else (or_else tsg_id (environ "SCM_TSG_ID"%string)) (environ "INSIGHTS_TSG_ID"%string) in
  match client_id, client_secret, tsg_id with
  | Some i, Some s, Some t =>
      if truthy_str client_id && truthy_str client_secret && truthy_str tsg_id
      then
        match Region_of (lower region) with
        | Some r => Client i s t r
        | None => RegionValueError
        end
      else Exit 1
  | _, _, _ => Exit 1
  end.

End cli.

(** * Auxiliary definitions for the statements *)

Import auth.

(** The replies on which the loops come back for another attempt. *)
Definition retryable_reply (r : reply) : bool :=
  match r with
  | Fails e => RETRYABLE_EXCEPTIONS e
  | Responds response => retryable_status (status_code response)
  end.

(** The error a retryable reply ends in when no attempt is left. *)
Definition terminal_error (r : reply) : exn :=
  match r with
  | Fails e => e
  | Responds response => HTTPStatusError (status_code response)
  end.

(** A token endpoint that answers every request with a usable token. *)
Definition issues_token (r : reply) : bool :=
  match r with
  | Fails _ => false
  | Responds response =>
      is_success (status_code response) &&
      match body response with
      | Some (JDict d) =>
          match assoc "access_token" d with
          | None => false
          | Some _ =>
              match assoc "expires_in" d with
              | None | Some (JInt _) | Some (JFloat _) | Some (JBool _) => true
              | Some _ => false
              end
          end
      | _ => false
      end
  end.

(** A token endpoint that cannot be reached. *)
Definition unreachable (r : reply) : bool :=
  match r with
  | Fails e => RETRYABLE_EXCEPTIONS e
  | Responds _ => false
  end.

(** The asyncio classes have the fields of the blocking ones. *)
Definition to_async (a : AuthClient.t) : AsyncAuthClient.t :=
  {| AsyncAuthClient.max_retries := AuthClient.max_retries a;
     AsyncAuthClient.retry_backoff := AuthClient.retry_backoff a;
     AsyncAuthClient._access_token := AuthClient._access_token a;
     AsyncAuthClient._token_expiry := AuthClient._token_expiry a |}.

Definition to_async_client (c : client.InsightsClient.t)
  : client.AsyncInsightsClient.t :=
  {| client.AsyncInsightsClient.max_retries := client.InsightsClient.max_retries c;
     client.AsyncInsightsClient.retry_backoff :=
       client.InsightsClient.retry_backoff c;
     client.AsyncInsightsClient._auth := to_async (client.InsightsClient._auth c);
     client.AsyncInsightsClient._client := client.InsightsClient._client c |}.

(** The retry settings of a client and of the auth client it owns, which
    no method changes. *)
Definition configured (N : Z) (rb : Q) (Na : Z) (rba : Q)
    (self : client.InsightsClient.t) : Prop :=
  client.InsightsClient.max_retries self = N /\
  client.InsightsClient.retry_backoff self = rb /\
  AuthClient.max_retries (client.InsightsClient._auth self) = Na /\
  AuthClient.retry_backoff (client.InsightsClient._auth self) = rba.

(** The observable part of a run: what is returned or raised, the object
    afterwards, and the world afterwards. *)
Definition observe {A S S' : Type} (f : S -> S') (x : A * S * world)
  : A * S' * world :=
  match x with (r, s, w) => (r, f s, w) end.

(** [attempts_from a n] is the tail [a, a+1, ..., a+n-1] of a [range]. *)
Definition attempts_from (a n : nat) : list Z := map Z.of_nat (seq a n).

(** * Concrete servers and clients for the examples *)

Definition healthy_token : reply :=
  Responds {| status_code := 200;
              body := Some (JDict [("access_token"%string, JStr "T1")]) |}.

Definition status (s : Z) : reply :=
  Responds {| status_code := s; body := None |}.

Definition servers (auth api : reply) : network :=
  {| auth_server := fun _ => {| elapsed := 0; outcome := auth |};
     api_server := fun _ _ => {| elapsed := 0; outcome := api |} |}.

Definition start : world :=
  {| now := 1000; auth_calls := 0; api_calls := 0; slept := [] |}.

Definition cached (N : Z) (token : json) (expiry : Q) : AuthClient.t :=
  {| AuthClient.max_retries := N; AuthClient.retry_backoff := 1;
     AuthClient._access_token := token; AuthClient._token_expiry := expiry |}.

(** The values of [expires_in] that [float_add] accepts: Python's
    numbers, bool among them. *)
Definition numeric (v : json) : bool :=
  match v with
  | JInt _ | JFloat _ | JBool _ => true
  | _ => false
  end.

(** What the loops do with a reply that is not retryable, once the token
    (for [_post]) is there. *)
Definition final_result (r : reply) : result json :=
  match r with
  | Fails e => Raise e
  | Responds response =>
      if is_success (status_code response) then
        match body response with
        | Some data => Return data
        | None => Raise JSONDecodeError
        end
      else Raise (HTTPStatusError (status_code response))
  end.

Definition flaky_token_endpoint : network :=
  {| auth_server := fun i =>
       {| elapsed := 0;
          outcome := if (i <? 2)%nat then status 503 else healthy_token |};
     api_server := fun _ _ => {| elapsed := 0; outcome := status 200 |} |}.

Definition flaky_resource (data : json) : network :=
  {| auth_server := fun _ => {| elapsed := 0; outcome := healthy_token |};
     api_server := fun i _ =>
       {| elapsed := 0;
          outcome := if (i <? 2)%nat then status 503
                     else Responds {| status_code := 200; body := Some data |} |} |}.

(** The rules of a body. *)
Definition body_rules (body : json) : result json :=
  match getitem body "filter" with
  | Raise e => Raise e
  | Return f => getitem f "rules"
  end.

(** The rules a QueryRequest holds. *)
Definition request_rules (q : models.QueryRequest) : list models.FilterRule :=
  match models.filter q with
  | Some f => models.rules f
  | None => []
  end.

(** Chaining add_filter over a list of (property, operator, values). *)
Definition add_filters (q : models.QueryRequest)
    (specs : list (string * models.Operator * list json)) : models.QueryRequest :=
  fold_left (fun q '(p, op, vs) => models.add_filter q p op vs) specs q.

Definition is_list (v : json) : bool :=
  match v with JList _ => true | _ => false end.

Definition is_dict (v : json) : bool :=
  match v with JDict _ => true | _ => false end.

Definition env_scm_only (name : string) : option string :=
  if String.eqb name "SCM_CLIENT_ID" then Some "svc@example"%string else None.

(** * Basic facts *)

Lemma Qltb_lt (x y : Q) : Qltb x y = true <-> (x < y)%Q.
Proof. unfold Qltb, Qlt. apply Z.ltb_lt. Qed.

Lemma Qltb_ge (x y : Q) : Qltb x y = false <-> (y <= x)%Q.
Proof. unfold Qltb, Qle. apply Z.ltb_ge. Qed.

Lemma backoff_delay_nonneg (rb : Q) (attempt : Z) :
  (0 <= rb)%Q -> Qltb (backoff_delay rb attempt) 0 = false.
Proof.
  intros Hrb. apply Qltb_ge. unfold backoff_delay.
  apply Qmult_le_0_compat; [exact Hrb|].
  unfold Qle; simpl. pose proof (Z.pow_nonneg 2 attempt). lia.
Qed.

Lemma time_sleep_nonneg (d : Q) (w : world) :
  Qltb d 0 = false -> time_sleep d w = (Return tt, record_sleep d (advance d w)).
Proof. intros H. unfold time_sleep. rewrite H. reflexivity. Qed.

Lemma retryable_status_spec (s : Z) :
  retryable_status s = true <->
  s = 429 \/ s = 500 \/ s = 502 \/ s = 503 \/ s = 504.
Proof.
  unfold retryable_status, RETRYABLE_STATUS_CODES. simpl.
  rewrite !orb_true_iff, !Z.eqb_eq. intuition discriminate.
Qed.

Lemma retryable_not_success (s : Z) :
  retryable_status s = true -> is_success s = false.
Proof.
  rewrite retryable_status_spec. unfold is_success.
  intros [->|[->|[->|[->| ->]]]]; reflexivity.
Qed.

Lemma success_not_retryable (s : Z) :
  is_success s = true -> retryable_status s = false.
Proof.
  intros H. destruct (retryable_status s) eqn:E; [|reflexivity].
  apply retryable_not_success in E. congruence.
Qed.

Lemma HTTPStatusError_not_retryable (s : Z) :
  RETRYABLE_EXCEPTIONS (HTTPStatusError s) = false.
Proof. reflexivity. Qed.

Lemma range_attempts (n : Z) : range n = attempts_from 0 (Z.to_nat n).
Proof. reflexivity. Qed.

Lemma attempts_from_S (a n : nat) :
  attempts_from a (S n) = Z.of_nat a :: attempts_from (S a) n.
Proof. reflexivity. Qed.

Lemma attempts_from_snoc (a n : nat) :
  attempts_from a (S n) = attempts_from a n ++ [Z.of_nat (a + n)].
Proof.
  unfold attempts_from. rewrite seq_S, map_app. reflexivity.
Qed.

(** * What the helpers can raise *)

Lemma response_json_raise (r : Response) (e : exn) :
  response_json r = Raise e -> e = JSONDecodeError.
Proof. unfold response_json. destruct (body r); congruence. Qed.

Lemma getitem_raise (data : json) (k : string) (e : exn) :
  getitem data k = Raise e -> e = KeyError k \/ e = TypeError.
Proof.
  unfold getitem. destruct data; try (intros [= <-]; now right).
  destruct (assoc k d); [discriminate|]. intros [= <-]. now left.
Qed.

Lemma getitem_return (data : json) (k : string) (v : json) :
  getitem data k = Return v -> exists d, data = JDict d /\ assoc k d = Some v.
Proof.
  unfold getitem. destruct data; try discriminate.
  destruct (assoc k d) eqn:E; [|discriminate]. intros [= <-]. eauto.
Qed.

Lemma get_dict (d : list (string * json)) (k : string) (default : json) :
  get (JDict d) k default =
  Return (match assoc k d with Some v => v | None => default end).
Proof. unfold get. destruct (assoc k d); reflexivity. Qed.

Lemma float_add_raise (x : Q) (v : json) (e : exn) :
  float_add x v = Raise e -> e = TypeError.
Proof. unfold float_add. destruct v; congruence. Qed.

Lemma raise_for_status_some (r : Response) (e : exn) :
  raise_for_status r = Some e ->
  e = HTTPStatusError (status_code r) /\ is_success (status_code r) = false.
Proof.
  unfold raise_for_status. destruct (is_success (status_code r)); [discriminate|].
  intros [= <-]. auto.
Qed.

Lemma raise_for_status_none (r : Response) :
  raise_for_status r = None -> is_success (status_code r) = true.
Proof.
  unfold raise_for_status. destruct (is_success (status_code r)); congruence.
Qed.

Lemma time_sleep_inv (d : Q) (w : world) (r : result unit) (w' : world) :
  time_sleep d w = (r, w') ->
  (r = Raise ValueError /\ w' = w /\ Qltb d 0 = true) \/
  (r = Return tt /\ w' = record_sleep d (advance d w) /\ Qltb d 0 = false).
Proof.
  unfold time_sleep. destruct (Qltb d 0); intros [= <- <-]; auto.
Qed.

Lemma parse_token_response_dict (d : list (string * json)) :
  parse_token_response (JDict d) =
  match assoc "access_token" d with
  | None => Raise (KeyError "access_token")
  | Some v =>
      Return {| access_token := v;
                token_type :=
                  match assoc "token_type" d with
                  | Some x => x | None => JStr "Bearer" end;
                expires_in :=
                  match assoc "expires_in" d with
                  | Some x => x | None => JInt 900 end;
                scope :=
                  match assoc "scope" d with
                  | Some x => x | None => JStr EmptyString end |}
  end.
Proof.
  unfold parse_token_response. rewrite !get_dict. unfold getitem.
  destruct (assoc "access_token" d); reflexivity.
Qed.

Lemma parse_token_response_raise (data : json) (e : exn) :
  parse_token_response data = Raise e ->
  e = KeyError "access_token" \/ e = TypeError.
Proof.
  destruct data; try (cbn; intros [= <-]; now right).
  rewrite parse_token_response_dict.
  destruct (assoc "access_token" d); [discriminate|]. intros [= <-]. now left.
Qed.

(** Case analysis on a scrutinee that is not itself a [match]. *)
Ltac break_match :=
  match goal with
  | |- context [match ?x with _ => _ end] =>
      lazymatch x with
      | context [match _ with _ => _ end] => fail
      | _ => destruct x eqn:?
      end
  end.

Ltac invert_raise :=
  repeat match goal with
  | H : response_json _ = Raise _ |- _ => apply response_json_raise in H; subst
  | H : float_add _ _ = Raise _ |- _ => apply float_add_raise in H; subst
  | H : parse_token_response _ = Raise _ |- _ =>
      apply parse_token_response_raise in H; destruct H; subst
  | H : getitem _ _ = Raise _ |- _ =>
      apply getitem_raise in H; destruct H; subst
  | H : raise_for_status _ = Some _ |- _ =>
      apply raise_for_status_some in H; destruct H; subst
  | H : time_sleep _ _ = (_, _) |- _ =>
      apply time_sleep_inv in H; destruct H as [(? & ? & ?)|(? & ? & ?)]; subst
  | H : Raise _ = Raise _ |- _ => injection H as ?; subst
  | H : Return _ = Return _ |- _ => injection H as ?; subst
  | H : Raise _ = Return _ |- _ => discriminate H
  | H : Return _ = Raise _ |- _ => discriminate H
  end.

Ltac finish_case :=
  cbn; repeat split; auto; try discriminate;
  try (intros; cbn in *; discriminate).

(** * One iteration of the token-refresh loop *)

Section RefreshSteps.

Variable net : network.

(** A retryable reply with an attempt left: sleep the backoff, go round. *)
Lemma refresh_step_retry (attempt : Z) (rest : list Z) (last : option exn)
    (self : AuthClient.t) (w : world) :
  retryable_reply (fst (post_auth net w)) = true ->
  attempt < AuthClient.max_retries self ->
  (0 <= AuthClient.retry_backoff self)%Q ->
  AuthClient._refresh_token_loop net (attempt :: rest) last self w =
  AuthClient._refresh_token_loop net rest
    (match fst (post_auth net w) with Fails e => Some e | Responds _ => last end)
    self
    (record_sleep (backoff_delay (AuthClient.retry_backoff self) attempt)
       (advance (backoff_delay (AuthClient.retry_backoff self) attempt)
          (snd (post_auth net w)))).
Proof.
  intros Hr Hlt Hrb.
  apply Z.ltb_lt in Hlt.
  pose proof (backoff_delay_nonneg _ attempt Hrb) as Hd.
  cbn [AuthClient._refresh_token_loop]. unfold AuthClient._refresh_token_try.
  destruct (post_auth net w) as [r w1]. cbn [fst snd] in *.
  destruct r as [response|e]; cbn [retryable_reply] in Hr.
  - rewrite Hr, Hlt. rewrite (time_sleep_nonneg _ _ Hd). reflexivity.
  - rewrite Hr, Hlt. rewrite (time_sleep_nonneg _ _ Hd). reflexivity.
Qed.

(** A retryable reply on the last attempt: the error leaves the loop. *)
Lemma refresh_step_exhausted (attempt : Z) (rest : list Z) (last : option exn)
    (self : AuthClient.t) (w : world) :
  retryable_reply (fst (post_auth net w)) = true ->
  ~ attempt < AuthClient.max_retries self ->
  AuthClient._refresh_token_loop net (attempt :: rest) last self w =
  (Raise (terminal_error (fst (post_auth net w))), self, snd (post_auth net w)).
Proof.
  intros Hr Hlt.
  apply Z.ltb_nlt in Hlt.
  cbn [AuthClient._refresh_token_loop]. unfold AuthClient._refresh_token_try.
  destruct (post_auth net w) as [r w1]. cbn [fst snd] in *.
  destruct r as [response|e]; cbn [retryable_reply terminal_error] in *.
  - rewrite Hr, Hlt. unfold raise_for_status.
    rewrite (retryable_not_success _ Hr). reflexivity.
  - rewrite Hr, Hlt. reflexivity.
Qed.

(** What one pass through the [try] can do. *)
Lemma refresh_try_spec (attempt : Z) (self : AuthClient.t) (w : world) :
  let r := fst (post_auth net w) in
  let w1 := snd (post_auth net w) in
  let d := backoff_delay (AuthClient.retry_backoff self) attempt in
  match AuthClient._refresh_token_try net attempt self w with
  | (Continue, self', w') =>
      retryable_reply r = true /\ attempt < AuthClient.max_retries self /\
      self' = self /\ w' = record_sleep d (advance d w1)
  | (Returned v, self', w') =>
      retryable_reply r = false /\ w' = w1 /\
      v = AuthClient._access_token self' /\
      AuthClient.max_retries self' = AuthClient.max_retries self /\
      AuthClient.retry_backoff self' = AuthClient.retry_backoff self
  | (Raised e, self', w') =>
      w' = w1 /\
      AuthClient.max_retries self' = AuthClient.max_retries self /\
      AuthClient.retry_backoff self' = AuthClient.retry_backoff self /\
      (RETRYABLE_EXCEPTIONS e = true -> r = Fails e /\ self' = self)
  end.
Proof.
  unfold AuthClient._refresh_token_try.
  destruct (post_auth net w) as [r w1]. cbn [fst snd].
  destruct r as [response|e]; cbn [retryable_reply].
  2:{ repeat split; auto. }
  destruct (retryable_status (status_code response)) eqn:Hs;
    [destruct (attempt <? AuthClient.max_retries self) eqn:Hlt|].
  - apply Z.ltb_lt in Hlt.
    destruct (time_sleep _ w1) as [[u|e] w2] eqn:Hsl; invert_raise; finish_case.
  - unfold raise_for_status. rewrite (retryable_not_success _ Hs). finish_case.
  - repeat break_match; invert_raise; finish_case.
Qed.

Lemma post_auth_fields (w : world) :
  auth_calls (snd (post_auth net w)) = S (auth_calls w) /\
  api_calls (snd (post_auth net w)) = api_calls w /\
  slept (snd (post_auth net w)) = slept w.
Proof. unfold post_auth. cbn. auto. Qed.

(** Every reply retryable: the loop uses up its attempts, sleeps between
    them, and raises the error of the last reply; [self] is not touched. *)
Lemma refresh_loop_all_retryable (len a : nat) (last : option exn)
    (self : AuthClient.t) (w : world) :
  Z.of_nat (a + S len) = AuthClient.max_retries self + 1 ->
  (0 <= AuthClient.retry_backoff self)%Q ->
  (forall i, (i <= len)%nat ->
     retryable_reply (outcome (auth_server net (auth_calls w + i))) = true) ->
  exists w',
    AuthClient._refresh_token_loop net (attempts_from a (S len)) last self w =
    (Raise (terminal_error (outcome (auth_server net (auth_calls w + len)))),
     self, w') /\
    auth_calls w' = (auth_calls w + S len)%nat /\
    api_calls w' = api_calls w /\
    slept w' =
    slept w ++ map (backoff_delay (AuthClient.retry_backoff self))
                   (attempts_from a len).
Proof.
  revert a last w. induction len as [|len IH]; intros a last w Hn Hrb Hall.
  - rewrite attempts_from_S.
    pose proof (Hall 0%nat (Nat.le_refl _)) as H0.
    rewrite Nat.add_0_r in *.
    rewrite refresh_step_exhausted by (cbn; auto; lia).
    exists (snd (post_auth net w)).
    destruct (post_auth_fields w) as (Ha & Hb & Hc).
    cbn [attempts_from seq map]. rewrite app_nil_r.
    repeat split; auto. lia.
  - rewrite attempts_from_S.
    pose proof (Hall 0%nat (Nat.le_0_l _)) as H0.
    rewrite Nat.add_0_r in H0.
    rewrite refresh_step_retry by (cbn; auto; lia).
    set (d := backoff_delay (AuthClient.retry_backoff self) (Z.of_nat a)).
    set (w2 := record_sleep d (advance d (snd (post_auth net w)))).
    assert (Hw2 : auth_calls w2 = S (auth_calls w) /\
                  api_calls w2 = api_calls w /\
                  slept w2 = slept w ++ [d]).
    { unfold w2, post_auth. cbn. auto. }
    destruct Hw2 as (Ha & Hb & Hc).
    destruct (IH (S a)
                 (match fst (post_auth net w) with
                  | Fails e => Some e | Responds _ => last end) w2)
      as (w' & Hrun & Hc1 & Hc2 & Hc3).
    + lia.
    + exact Hrb.
    + intros i Hi. rewrite Ha.
      replace (S (auth_calls w) + i)%nat with (auth_calls w + S i)%nat by lia.
      apply Hall. lia.
    + exists w'. rewrite Hrun, Ha.
      replace (S (auth_calls w) + len)%nat with (auth_calls w + S len)%nat by lia.
      repeat split; auto; try lia; try congruence.
      rewrite Hc3, Hc, <- app_assoc. rewrite (attempts_from_S a len).
      reflexivity.
Qed.

(** An iteration either ends the call right after its request, or sleeps
    the backoff of its attempt and hands over to the next iteration. *)
Lemma refresh_iter_cases (attempt : Z) (rest : list Z) (last : option exn)
    (self : AuthClient.t) (w : world) :
  (0 <= AuthClient.retry_backoff self)%Q ->
  let d := backoff_delay (AuthClient.retry_backoff self) attempt in
  (exists r self',
     AuthClient._refresh_token_loop net (attempt :: rest) last self w =
     (r, self', snd (post_auth net w)) /\
     AuthClient.max_retries self' = AuthClient.max_retries self /\
     AuthClient.retry_backoff self' = AuthClient.retry_backoff self) \/
  (attempt < AuthClient.max_retries self /\
   exists last',
     AuthClient._refresh_token_loop net (attempt :: rest) last self w =
     AuthClient._refresh_token_loop net rest last' self
       (record_sleep d (advance d (snd (post_auth net w))))).
Proof.
  intros Hrb d.
  pose proof (backoff_delay_nonneg _ attempt Hrb) as Hd.
  cbn [AuthClient._refresh_token_loop].
  pose proof (refresh_try_spec attempt self w) as Hspec. cbv zeta in Hspec.
  destruct (AuthClient._refresh_token_try net attempt self w)
    as [[[|v|e] self1] w1].
  - destruct Hspec as (_ & Hlt & -> & ->). right. split; [exact Hlt|]. eauto.
  - destruct Hspec as (_ & -> & _ & H1 & H2). left. eauto.
  - destruct Hspec as (-> & H1 & H2 & Hre).
    destruct (RETRYABLE_EXCEPTIONS e) eqn:Ee; [|left; eauto].
    destruct (Hre eq_refl) as (_ & ->).
    destruct (attempt <? AuthClient.max_retries self) eqn:Hlt; [|left; eauto].
    right. apply Z.ltb_lt in Hlt. split; [exact Hlt|].
    fold d. rewrite (time_sleep_nonneg _ _ Hd). eauto.
Qed.

(** Whatever the server replies: after [S j] requests the loop has slept
    the first [j] backoff delays, and never after its last request. *)
Lemma refresh_loop_general (len a : nat) (last : option exn)
    (self : AuthClient.t) (w : world) :
  Z.of_nat (a + S len) = AuthClient.max_retries self + 1 ->
  (0 <= AuthClient.retry_backoff self)%Q ->
  exists r self' w' j,
    AuthClient._refresh_token_loop net (attempts_from a (S len)) last self w =
    (r, self', w') /\
    (j <= len)%nat /\
    auth_calls w' = (auth_calls w + S j)%nat /\
    api_calls w' = api_calls w /\
    slept w' =
    slept w ++ map (backoff_delay (AuthClient.retry_backoff self))
                   (attempts_from a j) /\
    AuthClient.max_retries self' = AuthClient.max_retries self /\
    AuthClient.retry_backoff self' = AuthClient.retry_backoff self.
Proof.
  revert a last w.
  induction len as [|len IH]; intros a last w Hn Hrb; rewrite attempts_from_S;
    match goal with
    | |- context [AuthClient._refresh_token_loop _ (?x :: ?rest)] =>
        destruct (refresh_iter_cases x rest last self w Hrb)
          as [(r & self' & Hrun & H1 & H2)|(Hlt & last' & Hrun)]
    end;
    try lia.
  1,2: exists r, self', (snd (post_auth net w)), 0%nat;
       destruct (post_auth_fields w) as (Ha & Hb & Hc);
       cbn [attempts_from seq map]; rewrite app_nil_r;
       repeat split; auto; lia.
  set (d := backoff_delay (AuthClient.retry_backoff self) (Z.of_nat a)) in *.
  set (w2 := record_sleep d (advance d (snd (post_auth net w)))) in *.
  assert (Hw2 : auth_calls w2 = S (auth_calls w) /\
                api_calls w2 = api_calls w /\
                slept w2 = slept w ++ [d]).
  { unfold w2, post_auth. cbn. auto. }
  destruct Hw2 as (Ha & Hb & Hc).
  destruct (IH (S a) last' w2) as (r & self' & w' & j & Hrun' & Hj & H1 & H2 & H3 & H4);
    [lia|exact Hrb|].
  exists r, self', w', (S j). rewrite Hrun, Hrun'.
  repeat split; auto; try lia; try tauto.
  rewrite H3, Hc, <- app_assoc, (attempts_from_S a j). reflexivity.
Qed.

End RefreshSteps.

(** * get_token *)

Section GetToken.

Variable net : network.

Lemma range_succ (n : Z) :
  0 <= n -> range (n + 1) = attempts_from 0 (S (Z.to_nat n)).
Proof.
  intros Hn. rewrite range_attempts. f_equal.
  rewrite Z2Nat.inj_add by lia. rewrite Nat.add_comm. reflexivity.
Qed.

(** A valid cached token is handed out as it is. *)
Lemma get_token_cached (self : AuthClient.t) (w : world) :
  AuthClient.is_token_valid self w = true ->
  AuthClient.get_token net self w =
  (Return (AuthClient._access_token self), self, w).
Proof. intros H. unfold AuthClient.get_token. rewrite H. reflexivity. Qed.

(** get_token never talks to the resource server, makes at most
    [max_retries + 1] requests to the token endpoint and keeps the retry
    settings. *)
Lemma get_token_general (self : AuthClient.t) (w : world) :
  0 <= AuthClient.max_retries self ->
  (0 <= AuthClient.retry_backoff self)%Q ->
  exists r self' w',
    AuthClient.get_token net self w = (r, self', w') /\
    (auth_calls w <= auth_calls w'
     <= auth_calls w + S (Z.to_nat (AuthClient.max_retries self)))%nat /\
    api_calls w' = api_calls w /\
    AuthClient.max_retries self' = AuthClient.max_retries self /\
    AuthClient.retry_backoff self' = AuthClient.retry_backoff self.
Proof.
  intros Hn Hrb. unfold AuthClient.get_token.
  destruct (AuthClient.is_token_valid self w).
  - exists (Return (AuthClient._access_token self)), self, w.
    repeat split; auto; lia.
  - unfold AuthClient._refresh_token. rewrite range_succ by exact Hn.
    destruct (refresh_loop_general net (Z.to_nat (AuthClient.max_retries self))
                0 None self w)
      as (r & self' & w' & j & Hrun & Hj & H1 & H2 & _ & H4 & H5);
      [lia|exact Hrb|].
    exists r, self', w'. rewrite Hrun. repeat split; auto; lia.
Qed.

Lemma refresh_try_issues (attempt : Z) (self : AuthClient.t) (w : world) :
  issues_token (fst (post_auth net w)) = true ->
  exists v self',
    AuthClient._refresh_token_try net attempt self w =
    (Returned v, self', snd (post_auth net w)) /\
    AuthClient.max_retries self' = AuthClient.max_retries self /\
    AuthClient.retry_backoff self' = AuthClient.retry_backoff self.
Proof.
  unfold AuthClient._refresh_token_try.
  destruct (post_auth net w) as [r w1]. cbn [fst snd].
  destruct r as [response|e]; cbn [issues_token]; [|discriminate].
  intros H. apply andb_true_iff in H. destruct H as [Hs Hb].
  rewrite (success_not_retryable _ Hs). unfold raise_for_status, response_json.
  rewrite Hs. destruct (body response) as [[| | | | | |d]|]; try discriminate.
  rewrite parse_token_response_dict.
  destruct (assoc "access_token" d) as [v|]; [|discriminate].
  cbn [expires_in access_token].
  destruct (assoc "expires_in" d) as [[| | | | | |]|]; try discriminate;
    cbn; eauto.
Qed.

Lemma get_token_healthy (self : AuthClient.t) (w : world) :
  (forall i, issues_token (outcome (auth_server net i)) = true) ->
  0 <= AuthClient.max_retries self ->
  exists tok self' w',
    AuthClient.get_token net self w = (Return tok, self', w') /\
    api_calls w' = api_calls w /\
    slept w' = slept w /\
    AuthClient.max_retries self' = AuthClient.max_retries self /\
    AuthClient.retry_backoff self' = AuthClient.retry_backoff self.
Proof.
  intros Hok Hn. unfold AuthClient.get_token.
  destruct (AuthClient.is_token_valid self w).
  - eauto 10.
  - unfold AuthClient._refresh_token. rewrite range_succ by exact Hn.
    rewrite attempts_from_S. cbn [AuthClient._refresh_token_loop].
    destruct (refresh_try_issues (Z.of_nat 0) self w (Hok _)) as (v & self' & -> & H1 & H2).
    destruct (post_auth_fields net w) as (_ & Hb & Hc).
    eauto 10.
Qed.

End GetToken.

(** * One iteration of the request loop *)

Section PostSteps.

Import client.

Variable net : network.

Lemma post_api_fields (tok : json) (w : world) :
  auth_calls (snd (post_api net tok w)) = auth_calls w /\
  api_calls (snd (post_api net tok w)) = S (api_calls w) /\
  slept (snd (post_api net tok w)) = slept w.
Proof. unfold post_api. cbn. auto. Qed.

Lemma get_client_fields (self : InsightsClient.t) :
  InsightsClient.max_retries (InsightsClient._get_client self) =
  InsightsClient.max_retries self /\
  InsightsClient.retry_backoff (InsightsClient._get_client self) =
  InsightsClient.retry_backoff self /\
  InsightsClient._auth (InsightsClient._get_client self) =
  InsightsClient._auth self.
Proof.
  unfold InsightsClient._get_client.
  destruct (InsightsClient._client self); cbn; auto.
Qed.

Section WithToken.

(** The iteration got its token: [get_token] returned [tok]. *)
Variables (attempt : Z) (rest : list Z) (last : option exn).
Variables (self : InsightsClient.t) (w : world).
Variables (tok : json) (a1 : AuthClient.t) (w1 : world).

Hypothesis Htoken :
  AuthClient.get_token net (InsightsClient._auth self) w = (Return tok, a1, w1).

Let self1 : InsightsClient.t :=
  InsightsClient.set_auth a1 (InsightsClient._get_client self).
Let d : Q := backoff_delay (InsightsClient.retry_backoff self) attempt.

Lemma post_try_unfold :
  InsightsClient._post_try net attempt self w =
  match fst (post_api net tok w1) with
  | Fails e => (Raised e, self1, snd (post_api net tok w1))
  | Responds response =>
      if retryable_status (status_code response) &&
         (attempt <? InsightsClient.max_retries self)
      then
        match time_sleep d (snd (post_api net tok w1)) with
        | (Raise e, w2) => (Raised e, self1, w2)
        | (Return _, w2) => (Continue, self1, w2)
        end
      else
        match raise_for_status response with
        | Some e => (Raised e, self1, snd (post_api net tok w1))
        | None =>
            match response_json response with
            | Raise e => (Raised e, self1, snd (post_api net tok w1))
            | Return data => (Returned data, self1, snd (post_api net tok w1))
            end
        end
  end.
Proof.
  unfold InsightsClient._post_try, InsightsClient._get_headers.
  destruct (get_client_fields self) as (Hn & Hb & Ha).
  rewrite Ha, Htoken. fold self1.
  destruct (post_api net tok w1) as [r w2]. cbn [fst snd].
  destruct r as [response|e]; [|reflexivity].
  replace (InsightsClient.max_retries self1)
    with (InsightsClient.max_retries self) by (symmetry; exact Hn).
  replace (InsightsClient.retry_backoff self1)
    with (InsightsClient.retry_backoff self) by (symmetry; exact Hb).
  fold d.
  destruct (retryable_status (status_code response));
    destruct (attempt <? InsightsClient.max_retries self); reflexivity.
Qed.

Lemma self1_fields :
  InsightsClient.max_retries self1 = InsightsClient.max_retries self /\
  InsightsClient.retry_backoff self1 = InsightsClient.retry_backoff self /\
  InsightsClient._auth self1 = a1.
Proof.
  destruct (get_client_fields self) as (Hn & Hb & _).
  unfold self1. cbn. auto.
Qed.

(** A retryable reply with an attempt left. *)
Lemma post_step_retry :
  retryable_reply (fst (post_api net tok w1)) = true ->
  attempt < InsightsClient.max_retries self ->
  (0 <= InsightsClient.retry_backoff self)%Q ->
  InsightsClient._post_loop net (attempt :: rest) last self w =
  InsightsClient._post_loop net rest
    (match fst (post_api net tok w1) with Fails e => Some e | Responds _ => last end)
    self1 (record_sleep d (advance d (snd (post_api net tok w1)))).
Proof.
  intros Hr Hlt Hrb. apply Z.ltb_lt in Hlt.
  pose proof (backoff_delay_nonneg _ attempt Hrb) as Hd. fold d in Hd.
  destruct self1_fields as (Hn & Hb & _).
  cbn [InsightsClient._post_loop]. rewrite post_try_unfold.
  destruct (fst (post_api net tok w1)) as [response|e];
    cbn [retryable_reply] in Hr.
  - rewrite Hr, Hlt. cbn [andb]. rewrite (time_sleep_nonneg _ _ Hd). reflexivity.
  - rewrite Hr, Hn, Hlt, Hb. fold d. rewrite (time_sleep_nonneg _ _ Hd).
    reflexivity.
Qed.

(** A retryable reply on the last attempt. *)
Lemma post_step_exhausted :
  retryable_reply (fst (post_api net tok w1)) = true ->
  ~ attempt < InsightsClient.max_retries self ->
  InsightsClient._post_loop net (attempt :: rest) last self w =
  (Raise (terminal_error (fst (post_api net tok w1))), self1,
   snd (post_api net tok w1)).
Proof.
  intros Hr Hlt. apply Z.ltb_nlt in Hlt.
  destruct self1_fields as (Hn & Hb & _).
  cbn [InsightsClient._post_loop]. rewrite post_try_unfold.
  destruct (fst (post_api net tok w1)) as [response|e];
    cbn [retryable_reply terminal_error] in *.
  - rewrite Hr, Hlt. cbn [andb]. unfold raise_for_status.
    rewrite (retryable_not_success _ Hr). reflexivity.
  - rewrite Hr, Hn, Hlt. reflexivity.
Qed.

(** A status that is neither a success nor retryable. *)
Lemma post_step_status_error (response : Response) :
  fst (post_api net tok w1) = Responds response ->
  retryable_status (status_code response) = false ->
  is_success (status_code response) = false ->
  InsightsClient._post_loop net (attempt :: rest) last self w =
  (Raise (HTTPStatusError (status_code response)), self1,
   snd (post_api net tok w1)).
Proof.
  intros Hreply Hr Hs.
  cbn [InsightsClient._post_loop]. rewrite post_try_unfold, Hreply, Hr.
  cbn [andb]. unfold raise_for_status. rewrite Hs. reflexivity.
Qed.

(** In general: the iteration ends the call right after its request, or it
    sleeps the backoff of its attempt and hands over. *)
Lemma post_iter_cases :
  (0 <= InsightsClient.retry_backoff self)%Q ->
  (exists r,
     InsightsClient._post_loop net (attempt :: rest) last self w =
     (r, self1, snd (post_api net tok w1))) \/
  (attempt < InsightsClient.max_retries self /\
   exists last',
     InsightsClient._post_loop net (attempt :: rest) last self w =
     InsightsClient._post_loop net rest last' self1
       (record_sleep d (advance d (snd (post_api net tok w1))))).
Proof.
  intros Hrb.
  destruct (retryable_reply (fst (post_api net tok w1))) eqn:Hr.
  - destruct (Z.lt_ge_cases attempt (InsightsClient.max_retries self)) as [Hlt|Hge].
    + right. split; [exact Hlt|]. rewrite (post_step_retry Hr Hlt Hrb). eauto.
    + left. rewrite post_step_exhausted by (auto; lia). eauto.
  - left. cbn [InsightsClient._post_loop]. rewrite post_try_unfold.
    destruct (fst (post_api net tok w1)) as [response|e];
      cbn [retryable_reply] in Hr.
    + rewrite Hr. cbn [andb].
      repeat break_match; invert_raise; cbn in *; try discriminate; eauto.
    + rewrite Hr. eauto.
Qed.

End WithToken.

Section WithoutToken.

(** The iteration did not get its token: [get_token] raised [e]. *)
Variables (attempt : Z) (rest : list Z) (last : option exn).
Variables (self : InsightsClient.t) (w : world).
Variables (e : exn) (a1 : AuthClient.t) (w1 : world).

Hypothesis Htoken :
  AuthClient.get_token net (InsightsClient._auth self) w = (Raise e, a1, w1).

Let self1 : InsightsClient.t :=
  InsightsClient.set_auth a1 (InsightsClient._get_client self).
Let d : Q := backoff_delay (InsightsClient.retry_backoff self) attempt.

Lemma post_try_token_error :
  InsightsClient._post_try net attempt self w = (Raised e, self1, w1).
Proof.
  unfold InsightsClient._post_try, InsightsClient._get_headers.
  destruct (get_client_fields self) as (_ & _ & Ha).
  rewrite Ha, Htoken. reflexivity.
Qed.

(** A retryable exception out of the auth client is caught by the handler
    of [_post] and costs it one attempt. *)
Lemma post_step_token_retry :
  RETRYABLE_EXCEPTIONS e = true ->
  attempt < InsightsClient.max_retries self ->
  (0 <= InsightsClient.retry_backoff self)%Q ->
  InsightsClient._post_loop net (attempt :: rest) last self w =
  InsightsClient._post_loop net rest (Some e) self1
    (record_sleep d (advance d w1)).
Proof.
  intros He Hlt Hrb. apply Z.ltb_lt in Hlt.
  pose proof (backoff_delay_nonneg _ attempt Hrb) as Hd. fold d in Hd.
  destruct (get_client_fields self) as (Hn & Hb & _).
  cbn [InsightsClient._post_loop]. rewrite post_try_token_error, He.
  unfold self1 at 1 2. cbn [InsightsClient.set_auth InsightsClient.max_retries
    InsightsClient.retry_backoff]. rewrite Hn, Hb, Hlt. fold d.
  rewrite (time_sleep_nonneg _ _ Hd). reflexivity.
Qed.

Lemma post_step_token_raise :
  RETRYABLE_EXCEPTIONS e = false \/ ~ attempt < InsightsClient.max_retries self ->
  InsightsClient._post_loop net (attempt :: rest) last self w =
  (Raise e, self1, w1).
Proof.
  intros H.
  destruct (get_client_fields self) as (Hn & Hb & _).
  cbn [InsightsClient._post_loop]. rewrite post_try_token_error.
  destruct (RETRYABLE_EXCEPTIONS e); [|reflexivity].
  destruct H as [H|H]; [discriminate|]. apply Z.ltb_nlt in H.
  unfold self1 at 1. cbn [InsightsClient.set_auth InsightsClient.max_retries].
  rewrite Hn, H. reflexivity.
Qed.

End WithoutToken.

(** * The request loop as a whole *)

Section PostLoop.

Variables (N : Z) (rb : Q) (Na : Z) (rba : Q).

Hypothesis HN : 0 <= N.
Hypothesis Hrb : (0 <= rb)%Q.
Hypothesis HNa : 0 <= Na.
Hypothesis Hrba : (0 <= rba)%Q.

Lemma configured_next (self : InsightsClient.t) (a1 : AuthClient.t) :
  configured N rb Na rba self ->
  AuthClient.max_retries a1 = AuthClient.max_retries (InsightsClient._auth self) ->
  AuthClient.retry_backoff a1 =
  AuthClient.retry_backoff (InsightsClient._auth self) ->
  configured N rb Na rba (InsightsClient.set_auth a1 (InsightsClient._get_client self)).
Proof.
  intros (H1 & H2 & H3 & H4) Ha Hb'.
  destruct (get_client_fields self) as (Hn & Hb & _).
  unfold configured. cbn. repeat split; congruence.
Qed.

Section HealthyTokenEndpoint.

Hypothesis Hhealthy : forall i, issues_token (outcome (auth_server net i)) = true.

(** Every reply of the resource server retryable: all attempts are used. *)
Lemma post_loop_all_retryable (len a : nat) (last : option exn)
    (self : InsightsClient.t) (w : world) :
  configured N rb Na rba self ->
  Z.of_nat (a + S len) = N + 1 ->
  (forall i tok, (i <= len)%nat ->
     retryable_reply (outcome (api_server net (api_calls w + i) tok)) = true) ->
  exists e self' w',
    InsightsClient._post_loop net (attempts_from a (S len)) last self w =
    (Raise e, self', w') /\
    api_calls w' = (api_calls w + S len)%nat /\
    slept w' = slept w ++ map (backoff_delay rb) (attempts_from a len) /\
    (exists tok,
       e = terminal_error (outcome (api_server net (api_calls w + len) tok))).
Proof.
  revert a last self w.
  induction len as [|len IH]; intros a last self w Hcfg Hn Hall;
    rewrite attempts_from_S;
    pose proof Hcfg as (H1 & H2 & H3 & H4);
    destruct (get_token_healthy net (InsightsClient._auth self) w Hhealthy)
      as (tok & a1 & w1 & Htok & Hb1 & Hc1 & Hn1 & Hn2); try lia;
    destruct (post_api_fields tok w1) as (_ & Hb2 & Hc2);
    pose proof (Hall 0%nat tok (Nat.le_0_l _)) as H0;
    rewrite Nat.add_0_r, <- Hb1 in H0.
  - rewrite (post_step_exhausted _ _ _ _ _ _ _ _ Htok) by (cbn; auto; lia).
    do 3 eexists. split; [reflexivity|].
    cbn [attempts_from seq map]. rewrite app_nil_r, Nat.add_0_r.
    repeat split; try congruence; try lia.
    exists tok. rewrite <- Hb1. reflexivity.
  - rewrite (post_step_retry _ _ _ _ _ _ _ _ Htok)
      by (cbn; auto; try lia; rewrite H2; exact Hrb).
    rewrite H2.
    set (d := backoff_delay rb (Z.of_nat a)).
    set (w2 := record_sleep d (advance d (snd (post_api net tok w1)))).
    assert (Hw2 : api_calls w2 = S (api_calls w) /\ slept w2 = slept w ++ [d]).
    { unfold w2. cbn. split; congruence. }
    destruct Hw2 as (Hb3 & Hc3).
    edestruct (IH (S a)) as (e & self' & w' & Hrun & Hr1 & Hr2 & tok' & Hr3).
    + apply (configured_next self a1 Hcfg Hn1 Hn2).
    + lia.
    + intros i tok' Hi. rewrite Hb3.
      replace (S (api_calls w) + i)%nat with (api_calls w + S i)%nat by lia.
      apply Hall. lia.
    + exists e, self', w'. split; [exact Hrun|].
      rewrite Hr1, Hr2, Hb3, Hc3, <- app_assoc, (attempts_from_S a len).
      repeat split; try lia.
      exists tok'. rewrite Hr3, Hb3. f_equal. f_equal. f_equal. lia.
Qed.

(** Whatever the resource server replies: after [S j] requests [_post] has
    slept the first [j] backoff delays, and never after its last request. *)
Lemma post_loop_general (len a : nat) (last : option exn)
    (self : InsightsClient.t) (w : world) :
  configured N rb Na rba self ->
  Z.of_nat (a + S len) = N + 1 ->
  exists r self' w' j,
    InsightsClient._post_loop net (attempts_from a (S len)) last self w =
    (r, self', w') /\
    (j <= len)%nat /\
    api_calls w' = (api_calls w + S j)%nat /\
    slept w' = slept w ++ map (backoff_delay rb) (attempts_from a j).
Proof.
  revert a last self w.
  induction len as [|len IH]; intros a last self w Hcfg Hn;
    rewrite attempts_from_S;
    pose proof Hcfg as (H1 & H2 & H3 & H4);
    destruct (get_token_healthy net (InsightsClient._auth self) w Hhealthy)
      as (tok & a1 & w1 & Htok & Hb1 & Hc1 & Hn1 & Hn2); try lia;
    destruct (post_api_fields tok w1) as (_ & Hb2 & Hc2);
    match goal with
    | |- context [InsightsClient._post_loop _ (?x :: ?rest)] =>
        destruct (post_iter_cases x rest last self w tok a1 w1 Htok)
          as [(r & Hrun)|(Hlt & last' & Hrun)]
    end; try (rewrite H2; exact Hrb); try lia.
  1,2: do 3 eexists; exists 0%nat; split; [exact Hrun|];
       cbn [attempts_from seq map]; rewrite app_nil_r;
       repeat split; try congruence; lia.
  rewrite H2 in Hrun.
  set (d := backoff_delay rb (Z.of_nat a)) in *.
  set (w2 := record_sleep d (advance d (snd (post_api net tok w1)))) in *.
  assert (Hw2 : api_calls w2 = S (api_calls w) /\ slept w2 = slept w ++ [d]).
  { unfold w2. cbn. split; congruence. }
  destruct Hw2 as (Hb3 & Hc3).
  edestruct (IH (S a) last') as (r & self' & w' & j & Hrun' & Hj & Hr1 & Hr2).
  - apply (configured_next self a1 Hcfg Hn1 Hn2).
  - lia.
  - exists r, self', w', (S j). rewrite Hrun. split; [exact Hrun'|].
    rewrite Hr1, Hr2, Hb3, Hc3, <- app_assoc, (attempts_from_S a j).
    repeat split; lia.
Qed.

End HealthyTokenEndpoint.

Section UnreachableTokenEndpoint.

Hypothesis Hdown : forall i, unreachable (outcome (auth_server net i)) = true.

Lemma unreachable_retryable (r : reply) :
  unreachable r = true ->
  retryable_reply r = true /\ RETRYABLE_EXCEPTIONS (terminal_error r) = true.
Proof. destruct r; cbn; [discriminate|auto]. Qed.

(** With nothing cached, get_token runs the whole refresh loop in vain. *)
Lemma get_token_unreachable (a : AuthClient.t) (w : world) :
  AuthClient.max_retries a = Na ->
  AuthClient.retry_backoff a = rba ->
  truthy (AuthClient._access_token a) = false ->
  exists e w',
    AuthClient.get_token net a w = (Raise e, a, w') /\
    RETRYABLE_EXCEPTIONS e = true /\
    auth_calls w' = (auth_calls w + S (Z.to_nat Na))%nat /\
    api_calls w' = api_calls w.
Proof.
  intros H1 H2 Hnone. unfold AuthClient.get_token, AuthClient.is_token_valid.
  rewrite Hnone. cbn [negb]. unfold AuthClient._refresh_token.
  rewrite H1, range_succ by exact HNa.
  destruct (refresh_loop_all_retryable net (Z.to_nat Na) 0 None a w)
    as (w' & Hrun & Hc1 & Hc2 & _).
  - rewrite H1. lia.
  - rewrite H2. exact Hrba.
  - intros i _. apply unreachable_retryable, Hdown.
  - rewrite Hrun. do 2 eexists. split; [reflexivity|].
    split; [apply unreachable_retryable, Hdown|]. auto.
Qed.

(** Each attempt of [_post] costs a full round of token requests. *)
Lemma post_loop_unreachable (len a : nat) (last : option exn)
    (self : InsightsClient.t) (w : world) :
  configured N rb Na rba self ->
  truthy (AuthClient._access_token (InsightsClient._auth self)) = false ->
  Z.of_nat (a + S len) = N + 1 ->
  exists e self' w',
    InsightsClient._post_loop net (attempts_from a (S len)) last self w =
    (Raise e, self', w') /\
    RETRYABLE_EXCEPTIONS e = true /\
    auth_calls w' = (auth_calls w + S len * S (Z.to_nat Na))%nat /\
    api_calls w' = api_calls w.
Proof.
  revert a last self w.
  induction len as [|len IH]; intros a last self w Hcfg Hnone Hn;
    rewrite attempts_from_S;
    pose proof Hcfg as (H1 & H2 & H3 & H4);
    destruct (get_token_unreachable (InsightsClient._auth self) w H3 H4 Hnone)
      as (e & w1 & Htok & He & Hc1 & Hc2).
  - rewrite (post_step_token_raise _ _ _ _ _ _ _ _ Htok) by (right; lia).
    do 3 eexists. split; [reflexivity|]. repeat split; auto. lia.
  - rewrite (post_step_token_retry _ _ _ _ _ _ _ _ Htok)
      by (auto; try lia; rewrite H2; exact Hrb).
    rewrite H2.
    set (d := backoff_delay rb (Z.of_nat a)).
    edestruct (IH (S a) (Some e)) as (e' & self' & w' & Hrun & He' & Hr1 & Hr2).
    + apply (configured_next self _ Hcfg eq_refl eq_refl).
    + destruct (get_client_fields self) as (_ & _ & Ha). cbn. exact Hnone.
    + lia.
    + exists e', self', w'. split; [exact Hrun|].
      rewrite Hr1, Hr2. cbn [record_sleep advance auth_calls api_calls].
      rewrite Hc1, Hc2. repeat split; auto. lia.
Qed.

End UnreachableTokenEndpoint.

(** Whatever the two servers reply, [_post] sends the token endpoint at most
    a full round of requests per attempt. *)
Lemma post_loop_auth_bound (len a : nat) (last : option exn)
    (self : InsightsClient.t) (w : world) :
  configured N rb Na rba self ->
  Z.of_nat (a + S len) = N + 1 ->
  exists r self' w',
    InsightsClient._post_loop net (attempts_from a (S len)) last self w =
    (r, self', w') /\
    (auth_calls w' <= auth_calls w + S len * S (Z.to_nat Na))%nat /\
    (api_calls w' <= api_calls w + S len)%nat.
Proof.
  revert a last self w.
  induction len as [|len IH]; intros a last self w Hcfg Hn;
    rewrite attempts_from_S;
    pose proof Hcfg as (H1 & H2 & H3 & H4);
    destruct (get_token_general net (InsightsClient._auth self) w)
      as (rt & a1 & w1 & Htok & Hc1 & Hc2 & Hn1 & Hn2);
    try (rewrite H3; exact HNa); try (rewrite H4; exact Hrba);
    rewrite H3 in Hc1;
    pose proof (configured_next self a1 Hcfg Hn1 Hn2) as Hcfg1;
    destruct rt as [tok|e].
  - destruct (post_api_fields tok w1) as (Ha2 & Hb2 & _).
    destruct (post_iter_cases (Z.of_nat a) [] last self w tok a1 w1 Htok)
      as [(r & Hrun)|(Hlt & _)]; [rewrite H2; exact Hrb| |lia].
    do 3 eexists. split; [exact Hrun|]. nia.
  - rewrite (post_step_token_raise _ _ _ _ _ _ _ _ Htok) by (right; lia).
    do 3 eexists. split; [reflexivity|]. nia.
  - destruct (post_api_fields tok w1) as (Ha2 & Hb2 & _).
    destruct (post_iter_cases (Z.of_nat a) (attempts_from (S a) (S len)) last
                self w tok a1 w1 Htok)
      as [(r & Hrun)|(Hlt & last' & Hrun)]; [rewrite H2; exact Hrb| |].
    + do 3 eexists. split; [exact Hrun|]. nia.
    + rewrite Hrun.
      edestruct (IH (S a) last') as (r & self' & w' & Hrun' & Hr1 & Hr2);
        [exact Hcfg1|lia|].
      exists r, self', w'. split; [exact Hrun'|].
      cbn [record_sleep advance auth_calls api_calls] in Hr1, Hr2. nia.
  - destruct (RETRYABLE_EXCEPTIONS e) eqn:He.
    + rewrite (post_step_token_retry _ _ _ _ _ _ _ _ Htok)
        by (auto; try lia; rewrite H2; exact Hrb).
      edestruct (IH (S a) (Some e)) as (r & self' & w' & Hrun' & Hr1 & Hr2);
        [exact Hcfg1|lia|].
      exists r, self', w'. split; [exact Hrun'|].
      cbn [record_sleep advance auth_calls api_calls] in Hr1, Hr2. nia.
    + rewrite (post_step_token_raise _ _ _ _ _ _ _ _ Htok) by (left; exact He).
      do 3 eexists. split; [reflexivity|]. nia.
Qed.

End PostLoop.

End PostSteps.

(** * The asyncio variants against the blocking ones *)

Section Equivalence.

Import client.

Variable net : network.

Lemma asyncio_sleep_nonneg (d : Q) (w : world) :
  Qltb d 0 = false -> asyncio_sleep d w = record_sleep d (advance d w).
Proof. intros H. unfold asyncio_sleep. rewrite H. reflexivity. Qed.

Lemma refresh_try_equiv (attempt : Z) (self : AuthClient.t) (w : world) :
  (0 <= AuthClient.retry_backoff self)%Q ->
  AsyncAuthClient._refresh_token_try net attempt (to_async self) w =
  observe to_async (AuthClient._refresh_token_try net attempt self w).
Proof.
  intros Hrb. pose proof (backoff_delay_nonneg _ attempt Hrb) as Hd.
  unfold AsyncAuthClient._refresh_token_try, AuthClient._refresh_token_try.
  destruct (post_auth net w) as [r w1].
  destruct r as [response|e]; [|reflexivity].
  cbn [to_async AsyncAuthClient.max_retries AsyncAuthClient.retry_backoff].
  destruct (retryable_status (status_code response));
    [destruct (attempt <? AuthClient.max_retries self)|].
  - rewrite (time_sleep_nonneg _ _ Hd), (asyncio_sleep_nonneg _ _ Hd).
    reflexivity.
  - destruct (raise_for_status response); [reflexivity|].
    destruct (response_json response) as [[| | | | | |d]|]; try reflexivity.
    rewrite parse_token_response_dict. unfold getitem. rewrite get_dict.
    destruct (assoc "access_token" d); [|reflexivity].
    cbn [expires_in access_token].
    destruct (float_add _ _); reflexivity.
  - destruct (raise_for_status response); [reflexivity|].
    destruct (response_json response) as [[| | | | | |d]|]; try reflexivity.
    rewrite parse_token_response_dict. unfold getitem. rewrite get_dict.
    destruct (assoc "access_token" d); [|reflexivity].
    cbn [expires_in access_token].
    destruct (float_add _ _); reflexivity.
Qed.

(** The refresh loop leaves the retry settings alone. *)
Lemma refresh_loop_settings (attempts : list Z) (last : option exn)
    (self : AuthClient.t) (w : world) :
  AuthClient.max_retries
    (snd (fst (AuthClient._refresh_token_loop net attempts last self w))) =
  AuthClient.max_retries self /\
  AuthClient.retry_backoff
    (snd (fst (AuthClient._refresh_token_loop net attempts last self w))) =
  AuthClient.retry_backoff self.
Proof.
  revert last self w.
  induction attempts as [|attempt attempts IH]; intros last self w.
  - cbn. destruct last; auto.
  - cbn [AuthClient._refresh_token_loop].
    pose proof (refresh_try_spec net attempt self w) as Hspec. cbv zeta in Hspec.
    destruct (AuthClient._refresh_token_try net attempt self w)
      as [[[|v|e] self1] w1].
    + destruct Hspec as (_ & _ & -> & _). apply IH.
    + cbn. tauto.
    + destruct Hspec as (_ & H1 & H2 & _).
      destruct (RETRYABLE_EXCEPTIONS e); [|cbn; auto].
      destruct (attempt <? AuthClient.max_retries self1); [|cbn; auto].
      destruct (time_sleep _ w1) as [[u|e'] w2]; [|cbn; auto].
      destruct (IH (Some e) self1 w2) as (IH1 & IH2). split; congruence.
Qed.

Lemma refresh_loop_equiv (attempts : list Z) (last : option exn)
    (self : AuthClient.t) (w : world) :
  (0 <= AuthClient.retry_backoff self)%Q ->
  AsyncAuthClient._refresh_token_loop net attempts last (to_async self) w =
  observe to_async (AuthClient._refresh_token_loop net attempts last self w).
Proof.
  revert last self w.
  induction attempts as [|attempt attempts IH]; intros last self w Hrb.
  - cbn. destruct last; reflexivity.
  - cbn [AsyncAuthClient._refresh_token_loop AuthClient._refresh_token_loop].
    rewrite (refresh_try_equiv attempt self w Hrb).
    pose proof (refresh_try_spec net attempt self w) as Hspec. cbv zeta in Hspec.
    destruct (AuthClient._refresh_token_try net attempt self w)
      as [[[|v|e] self1] w1]; cbn [observe].
    + destruct Hspec as (_ & _ & -> & _). apply IH, Hrb.
    + reflexivity.
    + destruct Hspec as (_ & H1 & H2 & _).
      destruct (RETRYABLE_EXCEPTIONS e); [|reflexivity].
      cbn [to_async AsyncAuthClient.max_retries AsyncAuthClient.retry_backoff].
      destruct (attempt <? AuthClient.max_retries self1); [|reflexivity].
      assert (Hrb1 : (0 <= AuthClient.retry_backoff self1)%Q)
        by (rewrite H2; exact Hrb).
      pose proof (backoff_delay_nonneg _ attempt Hrb1) as Hd.
      rewrite (time_sleep_nonneg _ _ Hd), (asyncio_sleep_nonneg _ _ Hd).
      apply IH, Hrb1.
Qed.

Lemma refresh_equiv (self : AuthClient.t) (w : world) :
  (0 <= AuthClient.retry_backoff self)%Q ->
  AsyncAuthClient._refresh_token net (to_async self) w =
  observe to_async (AuthClient._refresh_token net self w).
Proof.
  intros Hrb. unfold AsyncAuthClient._refresh_token, AuthClient._refresh_token.
  apply refresh_loop_equiv, Hrb.
Qed.

Lemma get_token_equiv (self : AuthClient.t) (w : world) :
  (0 <= AuthClient.retry_backoff self)%Q ->
  AsyncAuthClient.get_token net (to_async self) w =
  observe to_async (AuthClient.get_token net self w).
Proof.
  intros Hrb. unfold AsyncAuthClient.get_token, AuthClient.get_token.
  change (AsyncAuthClient.is_token_valid (to_async self) w)
    with (AuthClient.is_token_valid self w).
  destruct (AuthClient.is_token_valid self w); [reflexivity|].
  apply refresh_equiv, Hrb.
Qed.

Lemma get_token_settings (self : AuthClient.t) (w : world) :
  AuthClient.max_retries (snd (fst (AuthClient.get_token net self w))) =
  AuthClient.max_retries self /\
  AuthClient.retry_backoff (snd (fst (AuthClient.get_token net self w))) =
  AuthClient.retry_backoff self.
Proof.
  unfold AuthClient.get_token.
  destruct (AuthClient.is_token_valid self w); [cbn; auto|].
  apply refresh_loop_settings.
Qed.

Lemma get_client_equiv (self : InsightsClient.t) :
  AsyncInsightsClient._get_client (to_async_client self) =
  to_async_client (InsightsClient._get_client self).
Proof.
  unfold AsyncInsightsClient._get_client, InsightsClient._get_client.
  cbn [to_async_client AsyncInsightsClient._client].
  destruct (InsightsClient._client self); reflexivity.
Qed.

Lemma get_headers_equiv (self : InsightsClient.t) (w : world) :
  (0 <= AuthClient.retry_backoff (InsightsClient._auth self))%Q ->
  AsyncInsightsClient._get_headers net (to_async_client self) w =
  observe to_async_client (InsightsClient._get_headers net self w).
Proof.
  intros Hrba.
  unfold AsyncInsightsClient._get_headers, InsightsClient._get_headers.
  cbn [to_async_client AsyncInsightsClient._auth].
  rewrite (get_token_equiv _ w Hrba).
  destruct (AuthClient.get_token net (InsightsClient._auth self) w) as [[r a1] w1].
  reflexivity.
Qed.

(** One pass through the [try] of [_post] keeps the retry settings, and
    leaves by [continue] only when an attempt is left. *)
Lemma post_try_settings (N : Z) (rb : Q) (Na : Z) (rba : Q) (attempt : Z)
    (self : InsightsClient.t) (w : world) :
  configured N rb Na rba self ->
  configured N rb Na rba
    (snd (fst (InsightsClient._post_try net attempt self w))) /\
  (fst (fst (InsightsClient._post_try net attempt self w)) = Continue ->
   attempt < N).
Proof.
  intros Hcfg. pose proof Hcfg as (H1 & H2 & H3 & H4).
  unfold InsightsClient._post_try, InsightsClient._get_headers.
  destruct (get_client_fields self) as (Hn & Hb & Ha). rewrite Ha.
  destruct (get_token_settings (InsightsClient._auth self) w) as (Hs1 & Hs2).
  destruct (AuthClient.get_token net (InsightsClient._auth self) w)
    as [[rt a1] w1]. cbn [fst snd] in Hs1, Hs2.
  pose proof (configured_next N rb Na rba self a1 Hcfg Hs1 Hs2) as Hcfg1.
  destruct rt as [tok|e]; [|cbn; split; [exact Hcfg1|discriminate]].
  destruct (post_api net tok w1) as [r w2].
  destruct r as [response|e]; [|cbn; split; [exact Hcfg1|discriminate]].
  pose proof Hcfg1 as (G1 & _).
  destruct (retryable_status (status_code response)).
  - rewrite G1. destruct (attempt <? N) eqn:Hlt.
    + apply Z.ltb_lt in Hlt.
      destruct (time_sleep _ w2) as [[u|e] w3]; cbn; auto.
    + repeat break_match; cbn; split; auto; discriminate.
  - repeat break_match; cbn; split; auto; discriminate.
Qed.

Lemma post_try_equiv (attempt : Z) (self : InsightsClient.t) (w : world) :
  (0 <= InsightsClient.retry_backoff self)%Q ->
  (0 <= AuthClient.retry_backoff (InsightsClient._auth self))%Q ->
  AsyncInsightsClient._post_try net attempt (to_async_client self) w =
  observe to_async_client (InsightsClient._post_try net attempt self w).
Proof.
  intros Hrb Hrba. pose proof (backoff_delay_nonneg _ attempt Hrb) as Hd.
  destruct (get_client_fields self) as (Hn & Hb & Ha).
  unfold AsyncInsightsClient._post_try, InsightsClient._post_try.
  rewrite get_client_equiv, get_headers_equiv by (rewrite Ha; exact Hrba).
  unfold InsightsClient._get_headers. rewrite Ha.
  destruct (AuthClient.get_token net (InsightsClient._auth self) w)
    as [[rt a1] w1]. cbn [observe].
  destruct rt as [tok|e]; [|reflexivity].
  destruct (post_api net tok w1) as [r w2].
  destruct r as [response|e]; [|reflexivity].
  cbn [to_async_client AsyncInsightsClient.max_retries
       AsyncInsightsClient.retry_backoff InsightsClient.set_auth
       InsightsClient.max_retries InsightsClient.retry_backoff].
  rewrite Hn, Hb.
  destruct (retryable_status (status_code response));
    [destruct (attempt <? InsightsClient.max_retries self)|].
  - rewrite (time_sleep_nonneg _ _ Hd), (asyncio_sleep_nonneg _ _ Hd).
    reflexivity.
  - destruct (raise_for_status response); [reflexivity|].
    destruct (response_json response); reflexivity.
  - destruct (raise_for_status response); [reflexivity|].
    destruct (response_json response); reflexivity.
Qed.

Lemma post_loop_equiv (N : Z) (rb : Q) (Na : Z) (rba : Q) (len a : nat)
    (last : option exn) (self : InsightsClient.t) (w : world) :
  (0 <= rb)%Q -> (0 <= rba)%Q ->
  configured N rb Na rba self ->
  Z.of_nat (a + S len) = N + 1 ->
  AsyncInsightsClient._post_loop net (attempts_from a (S len)) last
    (to_async_client self) w =
  observe to_async_client
    (InsightsClient._post_loop net (attempts_from a (S len)) last self w).
Proof.
  intros Hrb Hrba. revert a last self w.
  induction len as [|len IH]; intros a last self w Hcfg Hn;
    rewrite attempts_from_S;
    pose proof Hcfg as (H1 & H2 & H3 & H4);
    cbn [AsyncInsightsClient._post_loop InsightsClient._post_loop];
    rewrite post_try_equiv by (rewrite ?H2, ?H4; assumption);
    destruct (post_try_settings N rb Na rba (Z.of_nat a) self w Hcfg)
      as (Hcfg1 & Hcont);
    destruct (InsightsClient._post_try net (Z.of_nat a) self w)
      as [[[|v|e] self1] w1]; cbn [fst snd observe] in *;
    pose proof Hcfg1 as (G1 & G2 & G3 & G4);
    try reflexivity;
    try (specialize (Hcont eq_refl); lia).
  - destruct (RETRYABLE_EXCEPTIONS e); [|reflexivity].
    cbn [to_async_client AsyncInsightsClient.max_retries].
    rewrite G1. replace (Z.of_nat a <? N) with false
      by (symmetry; apply Z.ltb_nlt; lia).
    reflexivity.
  - apply IH; [exact Hcfg1|lia].
  - destruct (RETRYABLE_EXCEPTIONS e); [|reflexivity].
    cbn [to_async_client AsyncInsightsClient.max_retries
         AsyncInsightsClient.retry_backoff].
    rewrite G1, G2. replace (Z.of_nat a <? N) with true
      by (symmetry; apply Z.ltb_lt; lia).
    pose proof (backoff_delay_nonneg _ (Z.of_nat a) Hrb) as Hd.
    rewrite (time_sleep_nonneg _ _ Hd), (asyncio_sleep_nonneg _ _ Hd).
    apply IH; [exact Hcfg1|lia].
Qed.

End Equivalence.

(** * A 2xx reply of the token endpoint *)

Section TokenReply.

Variable net : network.

Variables (attempt : Z) (rest : list Z) (last : option exn).
Variables (self : AuthClient.t) (w : world).
Variables (response : Response) (d : list (string * json)).

Hypothesis Hreply : outcome (auth_server net (auth_calls w)) = Responds response.
Hypothesis Hstatus : is_success (status_code response) = true.
Hypothesis Hbody : body response = Some (JDict d).

Lemma refresh_try_2xx :
  AuthClient._refresh_token_try net attempt self w =
  match assoc "access_token" d with
  | None => (Raised (KeyError "access_token"), self, snd (post_auth net w))
  | Some v =>
      match float_add (now (snd (post_auth net w)))
              (match assoc "expires_in" d with
               | Some x => x | None => JInt 900 end) with
      | Raise e =>
          (Raised e, AuthClient.set_access_token v self, snd (post_auth net w))
      | Return expiry =>
          (Returned v,
           AuthClient.set_token_expiry expiry (AuthClient.set_access_token v self),
           snd (post_auth net w))
      end
  end.
Proof.
  unfold AuthClient._refresh_token_try, post_auth. cbn [fst snd]. rewrite Hreply.
  rewrite (success_not_retryable _ Hstatus).
  unfold raise_for_status, response_json. rewrite Hstatus, Hbody.
  rewrite parse_token_response_dict.
  destruct (assoc "access_token" d) as [v|]; [|reflexivity].
  cbn [expires_in access_token]. destruct (float_add _ _); reflexivity.
Qed.

(** The token is stored and returned. *)
Lemma refresh_loop_2xx_token (v : json) (expiry : Q) :
  assoc "access_token" d = Some v ->
  float_add (now (snd (post_auth net w)))
    (match assoc "expires_in" d with Some x => x | None => JInt 900 end) =
  Return expiry ->
  AuthClient._refresh_token_loop net (attempt :: rest) last self w =
  (Return v,
   AuthClient.set_token_expiry expiry (AuthClient.set_access_token v self),
   snd (post_auth net w)).
Proof.
  intros Hv He. cbn [AuthClient._refresh_token_loop].
  rewrite refresh_try_2xx, Hv, He. reflexivity.
Qed.

(** Without [access_token] the KeyError leaves the loop at once. *)
Lemma refresh_loop_2xx_no_token :
  assoc "access_token" d = None ->
  AuthClient._refresh_token_loop net (attempt :: rest) last self w =
  (Raise (KeyError "access_token"), self, snd (post_auth net w)).
Proof.
  intros Hv. cbn [AuthClient._refresh_token_loop].
  rewrite refresh_try_2xx, Hv. reflexivity.
Qed.

End TokenReply.

(** * The properties of the specification *)

(** C1. Token validity predicate: is_token_valid is true exactly when a
    token is cached (the stored token is a true value for Python) and the
    clock reads strictly less than the stored expiry minus 60 seconds. In
    particular it is false when nothing is cached, false when the clock
    reads exactly the expiry minus 60 seconds, and false at every later
    instant. *)
Theorem is_token_valid_spec (self : AuthClient.t) (w : world) :
  (AuthClient.is_token_valid self w = true <->
   truthy (AuthClient._access_token self) = true /\
   (now w < AuthClient._token_expiry self - 60)%Q) /\
  (AuthClient._access_token self = JNull ->
   AuthClient.is_token_valid self w = false) /\
  ((now w == AuthClient._token_expiry self - 60)%Q ->
   AuthClient.is_token_valid self w = false) /\
  ((AuthClient._token_expiry self - 60 <= now w)%Q ->
   AuthClient.is_token_valid self w = false).
Proof.
  unfold AuthClient.is_token_valid.
  assert (Hlate : (AuthClient._token_expiry self - 60 <= now w)%Q ->
                  (if negb (truthy (AuthClient._access_token self)) then false
                   else Qltb (now w) (AuthClient._token_expiry self - 60)) = false).
  { intros Hle. destruct (negb _); [reflexivity|]. now apply Qltb_ge. }
  repeat split.
  - destruct (truthy (AuthClient._access_token self)); cbn in *;
      [reflexivity|discriminate].
  - destruct (truthy (AuthClient._access_token self)); cbn in *;
      [now apply Qltb_lt|discriminate].
  - intros [Ht Hlt]. rewrite Ht. cbn. now apply Qltb_lt.
  - intros ->. reflexivity.
  - intros Heq. apply Hlate. rewrite Heq. apply Qle_refl.
  - exact Hlate.
Qed.

Lemma is_token_valid_spec_witness :
  AuthClient._access_token (cached 3 JNull 2000) = JNull /\
  (now start == AuthClient._token_expiry (cached 3 (JStr "T1") 1060) - 60)%Q /\
  (AuthClient._token_expiry (cached 3 (JStr "T1") 900) - 60 <= now start)%Q /\
  AuthClient.is_token_valid (cached 3 JNull 2000) start = false /\
  AuthClient.is_token_valid (cached 3 (JStr "T1") 1060) start = false /\
  AuthClient.is_token_valid (cached 3 (JStr "T1") 900) start = false /\
  AuthClient.is_token_valid (cached 3 (JStr "T1") 2000) start = true.
Proof.
  assert (H1 : AuthClient._access_token (cached 3 JNull 2000) = JNull)
    by reflexivity.
  assert (H2 : (now start ==
                AuthClient._token_expiry (cached 3 (JStr "T1") 1060) - 60)%Q)
    by reflexivity.
  assert (H3 : (AuthClient._token_expiry (cached 3 (JStr "T1") 900) - 60
                <= now start)%Q)
    by (vm_compute; discriminate).
  split; [exact H1|]. split; [exact H2|]. split; [exact H3|].
  split; [|split; [|split]].
  - exact (proj1 (proj2 (is_token_valid_spec (cached 3 JNull 2000) start)) H1).
  - exact (proj1 (proj2 (proj2
             (is_token_valid_spec (cached 3 (JStr "T1") 1060) start))) H2).
  - exact (proj2 (proj2 (proj2
             (is_token_valid_spec (cached 3 (JStr "T1") 900) start))) H3).
  - apply (proj1 (is_token_valid_spec (cached 3 (JStr "T1") 2000) start)).
    split; [reflexivity|]. vm_compute. reflexivity.
Defined.

(** A second call right after a call that left a valid token behind: same
    token, same object, no request. *)
Lemma get_token_again (net : network) (self self1 : AuthClient.t)
    (w w1 : world) (tok : json) :
  AuthClient.get_token net self w = (Return tok, self1, w1) ->
  AuthClient.is_token_valid self1 w1 = true ->
  AuthClient.get_token net self1 w1 = (Return tok, self1, w1).
Proof.
  intros Hfirst Hvalid. rewrite (get_token_cached net self1 w1 Hvalid).
  unfold AuthClient.get_token in Hfirst.
  destruct (AuthClient.is_token_valid self w).
  - injection Hfirst as <- <- <-. reflexivity.
  - unfold AuthClient._refresh_token in Hfirst.
    assert (Hret : forall attempts last s0 w0,
              AuthClient._refresh_token_loop net attempts last s0 w0 =
              (Return tok, self1, w1) ->
              tok = AuthClient._access_token self1).
    { induction attempts as [|attempt attempts IH]; intros last s0 w0.
      - cbn. destruct last; discriminate.
      - cbn [AuthClient._refresh_token_loop].
        pose proof (refresh_try_spec net attempt s0 w0) as Hspec.
        cbv zeta in Hspec.
        destruct (AuthClient._refresh_token_try net attempt s0 w0)
          as [[[|v|e] s1] w2].
        + apply IH.
        + destruct Hspec as (_ & _ & Hv & _). intros [= <- <- <-]. exact Hv.
        + destruct (RETRYABLE_EXCEPTIONS e); [|discriminate].
          destruct (attempt <? AuthClient.max_retries s1); [|discriminate].
          destruct (time_sleep _ w2) as [[u|e'] w3]; [|discriminate].
          apply IH. }
    rewrite (Hret _ _ _ _ Hfirst). reflexivity.
Qed.





(** C4, as the code has it. A refresh that fails after all its attempts met
    a retryable reply raises the error of the last attempt and leaves the
    manager as it was before the refresh began: a token cached before is
    still cached afterwards, and a manager without a token is still without
    one. *)
Theorem refresh_failure_keeps_state (net : network) (self : AuthClient.t)
    (w : world) :
  0 <= AuthClient.max_retries self ->
  (0 <= AuthClient.retry_backoff self)%Q ->
  (forall i, (i <= Z.to_nat (AuthClient.max_retries self))%nat ->
     retryable_reply (outcome (auth_server net (auth_calls w + i))) = true) ->
  exists e w',
    AuthClient._refresh_token net self w = (Raise e, self, w') /\
    e = terminal_error
          (outcome (auth_server net
             (auth_calls w + Z.to_nat (AuthClient.max_retries self)))).
Proof.
  intros HN Hrb Hall.
  unfold AuthClient._refresh_token. rewrite range_succ by exact HN.
  destruct (refresh_loop_all_retryable net
              (Z.to_nat (AuthClient.max_retries self)) 0 None self w)
    as (w' & Hrun & _); [lia|exact Hrb|exact Hall|].
  eauto.
Qed.

Lemma refresh_failure_keeps_state_witness :
  exists e w',
    AuthClient._refresh_token (servers (status 503) (status 200))
      (cached 1 (JStr "old") 0) start =
    (Raise e, cached 1 (JStr "old") 0, w') /\
    e = HTTPStatusError 503.
Proof.
  apply (refresh_failure_keeps_state (servers (status 503) (status 200))
           (cached 1 (JStr "old") 0) start).
  - cbn. lia.
  - cbn. lra.
  - intros i _. reflexivity.
Defined.

(** C4, as the specification states it, fails: the refresh below exhausts
    its retries and raises, and the token cached before it is still there. *)
Lemma refresh_failure_does_not_clear :
  exists e self' w',
    AuthClient._refresh_token (servers (status 503) (status 200))
      (cached 1 (JStr "old") 0) start = (Raise e, self', w') /\
    auth_calls w' = 2%nat /\
    AuthClient._access_token self' <> JNull.
Proof.
  do 3 eexists. split; [vm_compute; reflexivity|].
  split; [reflexivity|]. cbn. discriminate.
Qed.



(** get_token never talks to the resource server. *)
Lemma refresh_loop_api_calls (net : network) (attempts : list Z)
    (last : option exn) (self : AuthClient.t) (w : world) :
  api_calls (snd (AuthClient._refresh_token_loop net attempts last self w)) =
  api_calls w.
Proof.
  revert last self w.
  induction attempts as [|attempt attempts IH]; intros last self w.
  - cbn. destruct last; reflexivity.
  - cbn [AuthClient._refresh_token_loop].
    pose proof (refresh_try_spec net attempt self w) as Hspec.
    cbv zeta in Hspec.
    destruct (post_auth_fields net w) as (_ & Hb & _).
    destruct (AuthClient._refresh_token_try net attempt self w)
      as [[[|v|e] s1] w2].
    + destruct Hspec as (_ & _ & _ & ->). rewrite IH. cbn. exact Hb.
    + destruct Hspec as (_ & -> & _). cbn. exact Hb.
    + destruct Hspec as (-> & _).
      destruct (RETRYABLE_EXCEPTIONS e); [|cbn; exact Hb].
      destruct (attempt <? AuthClient.max_retries s1); [|cbn; exact Hb].
      destruct (time_sleep _ _) as [[u|e'] w3] eqn:Hsl; invert_raise;
        try discriminate.
      * rewrite IH. cbn. exact Hb.
      * cbn. exact Hb.
Qed.

Lemma get_token_api_calls (net : network) (self : AuthClient.t) (w : world) :
  api_calls (snd (AuthClient.get_token net self w)) = api_calls w.
Proof.
  unfold AuthClient.get_token.
  destruct (AuthClient.is_token_valid self w); [reflexivity|].
  apply refresh_loop_api_calls.
Qed.

(** C6. No retry on a non-retryable status: when the first attempt of a
    resource call receives a status that is neither 2xx nor one of 429,
    500, 502, 503, 504, _post sends that one request, does not sleep, and
    raises the HTTP status error of that status. *)
Theorem no_retry_on_other_status (net : network)
    (self : client.InsightsClient.t) (w : world) (tok : json)
    (a1 : AuthClient.t) (w1 : world) (response : Response) :
  0 <= client.InsightsClient.max_retries self ->
  AuthClient.get_token net (client.InsightsClient._auth self) w =
  (Return tok, a1, w1) ->
  outcome (api_server net (api_calls w1) tok) = Responds response ->
  is_success (status_code response) = false ->
  retryable_status (status_code response) = false ->
  exists self' w',
    client.InsightsClient._post net self w =
    (Raise (HTTPStatusError (status_code response)), self', w') /\
    api_calls w' = S (api_calls w) /\
    slept w' = slept w1.
Proof.
  intros HN Htok Hreply Hs Hr.
  unfold client.InsightsClient._post. rewrite range_succ by exact HN.
  rewrite attempts_from_S.
  rewrite (post_step_status_error net _ _ _ _ _ _ _ _ Htok response);
    [|cbn; exact Hreply|exact Hr|exact Hs].
  do 2 eexists. split; [reflexivity|].
  pose proof (get_token_api_calls net (client.InsightsClient._auth self) w)
    as Hapi.
  rewrite Htok in Hapi. cbn in Hapi. cbn. rewrite Hapi. auto.
Qed.

Lemma no_retry_on_other_status_witness :
  exists self' w',
    client.InsightsClient._post (servers healthy_token (status 401))
      (client.InsightsClient.__init__ 3 1) start =
    (Raise (HTTPStatusError 401), self', w') /\
    api_calls w' = 1%nat /\
    slept w' = [].
Proof.
  apply (no_retry_on_other_status (servers healthy_token (status 401))
           (client.InsightsClient.__init__ 3 1) start (JStr "T1")
           (AuthClient.set_token_expiry (1000 + 0 + 900)%Q
              (AuthClient.set_access_token (JStr "T1")
                 (AuthClient.__init__ 3 1)))
           (snd (post_auth (servers healthy_token (status 401)) start))
           {| status_code := 401; body := None |}).
  - cbn. lia.
  - reflexivity.
  - reflexivity.
  - reflexivity.
  - reflexivity.
Defined.

Lemma range_of_nat (j : nat) : range (Z.of_nat j) = attempts_from 0 j.
Proof. unfold range. rewrite Nat2Z.id. reflexivity. Qed.

(** C7. Backoff growth: in the token-refresh loop and in the request loop
    alike, the sleep that follows attempt number [attempt] lasts
    retry_backoff * 2^attempt seconds, for attempts 0, 1, ... in order and
    without jitter; a call that made j+1 requests slept j times, so no
    sleep follows the last attempt. *)
Theorem backoff_growth (net : network) (N : Z) (rb : Q) :
  0 <= N ->
  (0 <= rb)%Q ->
  (forall (self : AuthClient.t) (w : world),
     AuthClient.max_retries self = N ->
     AuthClient.retry_backoff self = rb ->
     exists r self' w' j,
       AuthClient._refresh_token net self w = (r, self', w') /\
       Z.of_nat j <= N /\
       auth_calls w' = (auth_calls w + S j)%nat /\
       slept w' =
       slept w ++ map (fun attempt => (rb * inject_Z (2 ^ attempt))%Q)
                      (range (Z.of_nat j))) /\
  (forall (self : client.InsightsClient.t) (w : world) (Na : Z) (rba : Q),
     configured N rb Na rba self ->
     0 <= Na ->
     (forall i, issues_token (outcome (auth_server net i)) = true) ->
     exists r self' w' j,
       client.InsightsClient._post net self w = (r, self', w') /\
       Z.of_nat j <= N /\
       api_calls w' = (api_calls w + S j)%nat /\
       slept w' =
       slept w ++ map (fun attempt => (rb * inject_Z (2 ^ attempt))%Q)
                      (range (Z.of_nat j))).
Proof.
  intros HN Hrb. split.
  - intros self w Hn Hb.
    unfold AuthClient._refresh_token. rewrite Hn, range_succ by exact HN.
    destruct (refresh_loop_general net (Z.to_nat N) 0 None self w)
      as (r & self' & w' & j & Hrun & Hj & Hc & _ & Hs & _);
      [lia|rewrite Hb; exact Hrb|].
    exists r, self', w', j. rewrite range_of_nat, Hs, Hb.
    repeat split; auto. lia.
  - intros self w Na rba Hcfg HNa Hhealthy.
    unfold client.InsightsClient._post.
    pose proof Hcfg as (Hn & _). rewrite Hn, range_succ by exact HN.
    destruct (post_loop_general net N rb Na rba Hrb HNa Hhealthy
                (Z.to_nat N) 0 None self w Hcfg)
      as (r & self' & w' & j & Hrun & Hj & Hc & Hs); [lia|].
    exists r, self', w', j. rewrite range_of_nat, Hs.
    repeat split; auto. lia.
Qed.

Lemma backoff_growth_witness :
  (exists r self' w' j,
     AuthClient._refresh_token (servers (status 503) (status 503))
       (AuthClient.__init__ 3 (1 # 2)) start = (r, self', w') /\
     Z.of_nat j <= 3 /\
     auth_calls w' = (0 + S j)%nat /\
     slept w' =
     [] ++ map (fun attempt => ((1 # 2) * inject_Z (2 ^ attempt))%Q)
               (range (Z.of_nat j))) /\
  (exists r self' w' j,
     client.InsightsClient._post (servers healthy_token (status 503))
       (client.InsightsClient.__init__ 3 (1 # 2)) start = (r, self', w') /\
     Z.of_nat j <= 3 /\
     api_calls w' = (0 + S j)%nat /\
     slept w' =
     [] ++ map (fun attempt => ((1 # 2) * inject_Z (2 ^ attempt))%Q)
               (range (Z.of_nat j))).
Proof.
  assert (H3 : 0 <= 3) by lia.
  assert (Hh : (0 <= 1 # 2)%Q) by (vm_compute; discriminate).
  split.
  - apply (proj1 (backoff_growth (servers (status 503) (status 503)) 3 (1 # 2)
                    H3 Hh) (AuthClient.__init__ 3 (1 # 2)) start);
      reflexivity.
  - apply (proj2 (backoff_growth (servers healthy_token (status 503)) 3 (1 # 2)
                    H3 Hh)
             (client.InsightsClient.__init__ 3 (1 # 2)) start 3 (1 # 2)).
    + repeat split.
    + lia.
    + intros i. reflexivity.
Defined.

(** The delays of the run above, spelled out: 0.5, 1, 2 seconds. *)
Example half_second_delays :
  slept (snd (AuthClient._refresh_token (servers (status 503) (status 503))
                (AuthClient.__init__ 3 (1 # 2)) start)) =
  [(1 # 2) * 1; (1 # 2) * 2; (1 # 2) * 4]%Q.
Proof. vm_compute. reflexivity. Qed.

(** C8. Token-response parsing: for a 2xx reply of the token endpoint
    whose body is a JSON object, a missing token_type reads as "Bearer", a
    missing expires_in as 900 (so that the stored expiry is the time of
    storing plus 900) and a missing scope as the empty string; without
    access_token the KeyError leaves _refresh_token at once, on whichever
    attempt it happens: one request, no sleep, no retry. *)
Theorem token_response_parsing (net : network) (attempt : Z) (rest : list Z)
    (last : option exn) (self : AuthClient.t) (w : world)
    (response : Response) (d : list (string * json)) :
  outcome (auth_server net (auth_calls w)) = Responds response ->
  is_success (status_code response) = true ->
  body response = Some (JDict d) ->
  match assoc "access_token" d with
  | Some v =>
      (exists tr,
         parse_token_response (JDict d) = Return tr /\
         access_token tr = v /\
         (assoc "token_type" d = None -> token_type tr = JStr "Bearer") /\
         (assoc "expires_in" d = None -> expires_in tr = JInt 900) /\
         (assoc "scope" d = None -> scope tr = JStr EmptyString)) /\
      (assoc "expires_in" d = None ->
       exists self' w',
         AuthClient._refresh_token_loop net (attempt :: rest) last self w =
         (Return v, self', w') /\
         AuthClient._access_token self' = v /\
         AuthClient._token_expiry self' = (now w' + 900)%Q)
  | None =>
      parse_token_response (JDict d) = Raise (KeyError "access_token") /\
      exists w',
        AuthClient._refresh_token_loop net (attempt :: rest) last self w =
        (Raise (KeyError "access_token"), self, w') /\
        auth_calls w' = S (auth_calls w) /\
        slept w' = slept w
  end.
Proof.
  intros Hreply Hstatus Hbody.
  destruct (assoc "access_token" d) as [v|] eqn:Hv.
  - split.
    + rewrite parse_token_response_dict, Hv. eexists. split; [reflexivity|].
      cbn. repeat split; intros ->; reflexivity.
    + intros He.
      rewrite (refresh_loop_2xx_token net attempt rest last self w response d
                 Hreply Hstatus Hbody v
                 (now (snd (post_auth net w)) + inject_Z 900)%Q Hv)
        by (rewrite He; reflexivity).
      do 2 eexists. split; [reflexivity|]. split; reflexivity.
  - split.
    + rewrite parse_token_response_dict, Hv. reflexivity.
    + rewrite (refresh_loop_2xx_no_token net attempt rest last self w response
                 d Hreply Hstatus Hbody Hv).
      eexists. split; [reflexivity|]. cbn. auto.
Qed.

Lemma token_response_parsing_witness :
  ((exists tr,
      parse_token_response (JDict [("access_token"%string, JStr "T1")]) =
      Return tr /\
      access_token tr = JStr "T1" /\
      (@None json = None -> token_type tr = JStr "Bearer") /\
      (@None json = None -> expires_in tr = JInt 900) /\
      (@None json = None -> scope tr = JStr EmptyString)) /\
   (@None json = None ->
    exists self' w',
      AuthClient._refresh_token_loop (servers healthy_token (status 200))
        [0] None (AuthClient.__init__ 3 1) start = (Return (JStr "T1"), self', w') /\
      AuthClient._access_token self' = JStr "T1" /\
      AuthClient._token_expiry self' = (now w' + 900)%Q)) /\
  (parse_token_response (JDict [("token_type"%string, JStr "Bearer")]) =
   Raise (KeyError "access_token") /\
   exists w',
     AuthClient._refresh_token_loop
       (servers (Responds {| status_code := 200;
                             body := Some (JDict [("token_type"%string,
                                                   JStr "Bearer")]) |})
                (status 200))
       [0; 1; 2; 3] None (AuthClient.__init__ 3 1) start =
     (Raise (KeyError "access_token"), AuthClient.__init__ 3 1, w') /\
     auth_calls w' = 1%nat /\
     slept w' = []).
Proof.
  split.
  - apply (token_response_parsing (servers healthy_token (status 200)) 0 []
             None (AuthClient.__init__ 3 1) start
             {| status_code := 200;
                body := Some (JDict [("access_token"%string, JStr "T1")]) |}
             [("access_token"%string, JStr "T1")]
             eq_refl eq_refl eq_refl).
  - apply (token_response_parsing
             (servers (Responds {| status_code := 200;
                                   body := Some (JDict [("token_type"%string,
                                                         JStr "Bearer")]) |})
                      (status 200))
             0 [1; 2; 3] None (AuthClient.__init__ 3 1) start
             {| status_code := 200;
                body := Some (JDict [("token_type"%string, JStr "Bearer")]) |}
             [("token_type"%string, JStr "Bearer")]
             eq_refl eq_refl eq_refl).
Defined.



(** Why the settings are taken not negative: on a negative delay
    time.sleep raises ValueError where asyncio.sleep returns at once. *)
Remark negative_backoff_sleeps_differ :
  time_sleep (-1) start = (Raise ValueError, start) /\
  asyncio_sleep (-1) start = record_sleep (-1) start.
Proof. split; reflexivity. Qed.



(** The run above, counted: sixteen token requests, no resource request,
    and the sleeps of both loops interleaved. *)
Example sixteen_token_requests :
  let w' := snd (client.InsightsClient._post
                   (servers (Fails ConnectError) (status 200))
                   (client.InsightsClient.__init__ 3 1) start) in
  auth_calls w' = 16%nat /\ api_calls w' = 0%nat /\ List.length (slept w') = 15%nat.
Proof. vm_compute. auto. Qed.

(** * Further properties of the token manager *)

(** X1. invalidate_token puts the manager back into the state __init__
    gives it, is idempotent, makes is_token_valid false whatever the clock
    reads, and so forces the next get_token to go to the token endpoint:
    with max_retries >= 0 at least one request is sent, even when the token
    dropped was still valid. *)
Theorem invalidate_token_forces_refresh (net : network) (self : AuthClient.t)
    (w : world) :
  0 <= AuthClient.max_retries self ->
  (0 <= AuthClient.retry_backoff self)%Q ->
  AuthClient.invalidate_token self =
  AuthClient.__init__ (AuthClient.max_retries self)
    (AuthClient.retry_backoff self) /\
  AuthClient.invalidate_token (AuthClient.invalidate_token self) =
  AuthClient.invalidate_token self /\
  AuthClient.is_token_valid (AuthClient.invalidate_token self) w = false /\
  AuthClient.get_token net (AuthClient.invalidate_token self) w =
  AuthClient._refresh_token net (AuthClient.invalidate_token self) w /\
  (auth_calls w <
   auth_calls (snd (AuthClient.get_token net (AuthClient.invalidate_token self) w)))%nat.
Proof.
  intros HN Hrb.
  assert (Hget : AuthClient.get_token net (AuthClient.invalidate_token self) w =
                 AuthClient._refresh_token net (AuthClient.invalidate_token self) w)
    by reflexivity.
  repeat split; try reflexivity.
  rewrite Hget. unfold AuthClient._refresh_token.
  change (AuthClient.max_retries (AuthClient.invalidate_token self))
    with (AuthClient.max_retries self).
  rewrite range_succ by exact HN.
  destruct (refresh_loop_general net (Z.to_nat (AuthClient.max_retries self))
              0 None (AuthClient.invalidate_token self) w)
    as (r & self' & w' & j & Hrun & _ & Hc & _); [cbn; lia|exact Hrb|].
  rewrite Hrun. cbn. lia.
Qed.

Lemma invalidate_token_forces_refresh_witness :
  AuthClient.is_token_valid (cached 3 (JStr "T0") 5000) start = true /\
  AuthClient.is_token_valid
    (AuthClient.invalidate_token (cached 3 (JStr "T0") 5000)) start = false /\
  (auth_calls start <
   auth_calls (snd (AuthClient.get_token (servers healthy_token (status 200))
                      (AuthClient.invalidate_token (cached 3 (JStr "T0") 5000))
                      start)))%nat.
Proof.
  assert (H3 : 0 <= AuthClient.max_retries (cached 3 (JStr "T0") 5000))
    by (cbn; lia).
  assert (H1 : (0 <= AuthClient.retry_backoff (cached 3 (JStr "T0") 5000))%Q)
    by (cbn; lra).
  pose proof (invalidate_token_forces_refresh
                (servers healthy_token (status 200))
                (cached 3 (JStr "T0") 5000) start H3 H1)
    as (_ & _ & Hv & _ & Hc).
  split; [vm_compute; reflexivity|]. split; [exact Hv|exact Hc].
Defined.

Lemma float_add_numeric (x : Q) (v : json) :
  numeric v = true -> exists y, float_add x v = Return y.
Proof. destruct v; try discriminate; cbn; eauto. Qed.

Lemma refresh_loop_recover (net : network) (k len a : nat) (last : option exn)
    (self : AuthClient.t) (w : world) (response : Response)
    (d : list (string * json)) (v : json) :
  (k <= len)%nat ->
  Z.of_nat (a + S len) = AuthClient.max_retries self + 1 ->
  (0 <= AuthClient.retry_backoff self)%Q ->
  (forall i, (i < k)%nat ->
     retryable_reply (outcome (auth_server net (auth_calls w + i))) = true) ->
  outcome (auth_server net (auth_calls w + k)) = Responds response ->
  is_success (status_code response) = true ->
  body response = Some (JDict d) ->
  assoc "access_token" d = Some v ->
  numeric (match assoc "expires_in" d with Some x => x | None => JInt 900 end)
  = true ->
  exists self' w',
    AuthClient._refresh_token_loop net (attempts_from a (S len)) last self w =
    (Return v, self', w') /\
    AuthClient._access_token self' = v /\
    float_add (now w')
      (match assoc "expires_in" d with Some x => x | None => JInt 900 end) =
    Return (AuthClient._token_expiry self') /\
    auth_calls w' = (auth_calls w + S k)%nat /\
    slept w' =
    slept w ++ map (backoff_delay (AuthClient.retry_backoff self))
                   (attempts_from a k).
Proof.
  revert len a last w.
  induction k as [|k IH]; intros len a last w Hk Hn Hrb Hall Hreply Hs Hb Hv Hnum.
  - rewrite Nat.add_0_r in Hreply. rewrite attempts_from_S.
    destruct (float_add_numeric (now (snd (post_auth net w))) _ Hnum)
      as (expiry & He).
    rewrite (refresh_loop_2xx_token net _ _ _ self w response d
               Hreply Hs Hb v expiry Hv He).
    do 2 eexists. split; [reflexivity|].
    cbn [attempts_from seq map]. rewrite app_nil_r.
    repeat split; auto. cbn. lia.
  - destruct len as [|len]; [lia|]. rewrite attempts_from_S.
    pose proof (Hall 0%nat (Nat.lt_0_succ _)) as H0. rewrite Nat.add_0_r in H0.
    rewrite refresh_step_retry by (cbn; auto; lia).
    set (dl := backoff_delay (AuthClient.retry_backoff self) (Z.of_nat a)).
    set (w2 := record_sleep dl (advance dl (snd (post_auth net w)))).
    assert (Hw2 : auth_calls w2 = S (auth_calls w) /\ slept w2 = slept w ++ [dl]).
    { unfold w2, post_auth. cbn. auto. }
    destruct Hw2 as (Ha & Hc).
    edestruct (IH len (S a)) with (w := w2)
      as (self' & w' & Hrun & H1 & H2 & H3 & H4).
    + lia.
    + lia.
    + exact Hrb.
    + intros i Hi. rewrite Ha.
      replace (S (auth_calls w) + i)%nat with (auth_calls w + S i)%nat by lia.
      apply Hall. lia.
    + rewrite Ha.
      replace (S (auth_calls w) + k)%nat with (auth_calls w + S k)%nat by lia.
      exact Hreply.
    + exact Hs.
    + exact Hb.
    + exact Hv.
    + exact Hnum.
    + exists self', w'. split; [exact Hrun|].
      rewrite H4, Hc, <- app_assoc, (attempts_from_S a k).
      repeat split; auto. lia.
Qed.



Lemma refresh_step_other_failure (net : network) (attempt : Z)
    (rest : list Z) (last : option exn) (self : AuthClient.t) (w : world) :
  retryable_reply (outcome (auth_server net (auth_calls w))) = false ->
  match outcome (auth_server net (auth_calls w)) with
  | Fails _ => True
  | Responds response => is_success (status_code response) = false
  end ->
  exists w',
    AuthClient._refresh_token_loop net (attempt :: rest) last self w =
    (Raise (terminal_error (outcome (auth_server net (auth_calls w)))), self, w') /\
    auth_calls w' = S (auth_calls w) /\
    slept w' = slept w.
Proof.
  intros Hr Hfail.
  exists (snd (post_auth net w)).
  split; [|destruct (post_auth_fields net w) as (Ha & _ & Hc); auto].
  cbn [AuthClient._refresh_token_loop]. unfold AuthClient._refresh_token_try.
  unfold post_auth at 1. cbn [fst snd].
  destruct (outcome (auth_server net (auth_calls w))) as [response|e];
    cbn [retryable_reply terminal_error] in *.
  - rewrite Hr. unfold raise_for_status. rewrite Hfail. reflexivity.
  - rewrite Hr. reflexivity.
Qed.

(** X3. No retry of the token refresh on a reply that is not retryable: a
    transport error outside RETRYABLE_EXCEPTIONS, or a status that is
    neither 2xx nor in RETRYABLE_STATUS_CODES (a 401, say), ends
    _refresh_token on whichever attempt it arrives: the error is raised
    after that one request, nothing is slept, the manager is unchanged. *)
Theorem refresh_no_retry_on_other_failure (net : network) (attempt : Z)
    (rest : list Z) (last : option exn) (self : AuthClient.t) (w : world) :
  retryable_reply (outcome (auth_server net (auth_calls w))) = false ->
  match outcome (auth_server net (auth_calls w)) with
  | Fails _ => True
  | Responds response => is_success (status_code response) = false
  end ->
  exists w',
    AuthClient._refresh_token_loop net (attempt :: rest) last self w =
    (Raise (terminal_error (outcome (auth_server net (auth_calls w)))), self, w') /\
    auth_calls w' = S (auth_calls w) /\
    slept w' = slept w.
Proof. apply refresh_step_other_failure. Qed.

Lemma refresh_no_retry_on_other_failure_witness :
  (exists w',
     AuthClient._refresh_token_loop (servers (status 401) (status 200))
       [0; 1; 2; 3] None (AuthClient.__init__ 3 1) start =
     (Raise (HTTPStatusError 401), AuthClient.__init__ 3 1, w') /\
     auth_calls w' = 1%nat /\ slept w' = []) /\
  (exists w',
     AuthClient._refresh_token_loop (servers (Fails PoolTimeout) (status 200))
       [0; 1; 2; 3] None (AuthClient.__init__ 3 1) start =
     (Raise PoolTimeout, AuthClient.__init__ 3 1, w') /\
     auth_calls w' = 1%nat /\ slept w' = []).
Proof.
  split.
  - apply (refresh_no_retry_on_other_failure (servers (status 401) (status 200))
             0 [1; 2; 3] None (AuthClient.__init__ 3 1) start);
      reflexivity.
  - apply (refresh_no_retry_on_other_failure
             (servers (Fails PoolTimeout) (status 200))
             0 [1; 2; 3] None (AuthClient.__init__ 3 1) start);
      [reflexivity|exact I].
Defined.

(** One pass through the [try]: an exception leaves [self] as it was, but
    for the TypeError of a non-numeric expires_in, which comes after the
    token has been stored. *)
Lemma refresh_try_raised_state (net : network) (attempt : Z)
    (self self' : AuthClient.t) (w w' : world) (e : exn) :
  AuthClient._refresh_token_try net attempt self w = (Raised e, self', w') ->
  self' = self \/
  (e = TypeError /\ exists v, self' = AuthClient.set_access_token v self).
Proof.
  unfold AuthClient._refresh_token_try.
  destruct (post_auth net w) as [r w1].
  destruct r as [response|e0]; [|intros [= <- <- <-]; now left].
  destruct (retryable_status (status_code response));
    [destruct (attempt <? AuthClient.max_retries self)|].
  - destruct (time_sleep _ w1) as [[u|e0] w2]; intros [= <- <- <-]. now left.
  - repeat break_match; intros H; invert_raise; try discriminate;
      injection H as <- <- <-; auto; right; eauto.
  - repeat break_match; intros H; invert_raise; try discriminate;
      injection H as <- <- <-; auto; right; eauto.
Qed.



(** X5. The half-done update: a 2xx token response whose expires_in is not
    a number (a string, null, a list) makes _refresh_token raise TypeError
    after the new token has replaced the cached one; the stored expiry is
    still the old one, and the error is not retried. *)
Theorem refresh_bad_expires_in (net : network) (attempt : Z) (rest : list Z)
    (last : option exn) (self : AuthClient.t) (w : world)
    (response : Response) (d : list (string * json)) (v x : json) :
  outcome (auth_server net (auth_calls w)) = Responds response ->
  is_success (status_code response) = true ->
  body response = Some (JDict d) ->
  assoc "access_token" d = Some v ->
  assoc "expires_in" d = Some x ->
  numeric x = false ->
  exists self' w',
    AuthClient._refresh_token_loop net (attempt :: rest) last self w =
    (Raise TypeError, self', w') /\
    AuthClient._access_token self' = v /\
    AuthClient._token_expiry self' = AuthClient._token_expiry self /\
    auth_calls w' = S (auth_calls w) /\
    slept w' = slept w.
Proof.
  intros Hreply Hs Hb Hv Hx Hnum.
  cbn [AuthClient._refresh_token_loop].
  rewrite (refresh_try_2xx net attempt self w response d Hreply Hs Hb), Hv, Hx.
  assert (Hadd : float_add (now (snd (post_auth net w))) x = Raise TypeError)
    by (destruct x; try discriminate; reflexivity).
  rewrite Hadd. cbn [RETRYABLE_EXCEPTIONS].
  do 2 eexists. split; [reflexivity|]. cbn. auto.
Qed.

Lemma refresh_bad_expires_in_witness :
  exists self' w',
    AuthClient._refresh_token_loop
      (servers (Responds
                  {| status_code := 200;
                     body := Some (JDict [("access_token"%string, JStr "new");
                                          ("expires_in"%string, JStr "900")]) |})
               (status 200))
      [0; 1] None (cached 1 (JStr "old") 7) start =
    (Raise TypeError, self', w') /\
    AuthClient._access_token self' = JStr "new" /\
    AuthClient._token_expiry self' =
    AuthClient._token_expiry (cached 1 (JStr "old") 7) /\
    auth_calls w' = 1%nat /\
    slept w' = [].
Proof.
  apply (refresh_bad_expires_in _ 0 [1] None (cached 1 (JStr "old") 7) start
           {| status_code := 200;
              body := Some (JDict [("access_token"%string, JStr "new");
                                   ("expires_in"%string, JStr "900")]) |}
           [("access_token"%string, JStr "new");
            ("expires_in"%string, JStr "900")]
           (JStr "new") (JStr "900"));
    reflexivity.
Defined.

Lemma refresh_loop_returns_stored (net : network) (attempts : list Z)
    (last : option exn) (self self' : AuthClient.t) (w w' : world) (tok : json) :
  AuthClient._refresh_token_loop net attempts last self w = (Return tok, self', w') ->
  tok = AuthClient._access_token self'.
Proof.
  revert last self w.
  induction attempts as [|attempt attempts IH]; intros last self w.
  - cbn. destruct last; discriminate.
  - cbn [AuthClient._refresh_token_loop].
    pose proof (refresh_try_spec net attempt self w) as Hspec. cbv zeta in Hspec.
    destruct (AuthClient._refresh_token_try net attempt self w)
      as [[[|v|e] s1] w2].
    + apply IH.
    + destruct Hspec as (_ & _ & Hv & _). intros [= <- <- <-]. exact Hv.
    + destruct (RETRYABLE_EXCEPTIONS e); [|discriminate].
      destruct (attempt <? AuthClient.max_retries s1); [|discriminate].
      destruct (time_sleep _ w2) as [[u|e'] w3]; [|discriminate].
      apply IH.
Qed.

(** X6. What any call of get_token may do: it sends the token endpoint at
    most max_retries + 1 requests and the resource server none, it leaves
    max_retries and retry_backoff as they are, and a token it returns is the
    token the manager holds afterwards. *)
Theorem get_token_frame (net : network) (self : AuthClient.t) (w : world) :
  0 <= AuthClient.max_retries self ->
  (0 <= AuthClient.retry_backoff self)%Q ->
  exists r self' w',
    AuthClient.get_token net self w = (r, self', w') /\
    Z.of_nat (auth_calls w) <= Z.of_nat (auth_calls w')
      <= Z.of_nat (auth_calls w) + AuthClient.max_retries self + 1 /\
    api_calls w' = api_calls w /\
    AuthClient.max_retries self' = AuthClient.max_retries self /\
    AuthClient.retry_backoff self' = AuthClient.retry_backoff self /\
    (forall tok, r = Return tok -> tok = AuthClient._access_token self').
Proof.
  intros HN Hrb.
  destruct (get_token_general net self w HN Hrb)
    as (r & self' & w' & Hrun & Hc & Ha & Hn & Hb).
  exists r, self', w'. split; [exact Hrun|].
  repeat split; auto; try lia.
  intros tok ->. unfold AuthClient.get_token in Hrun.
  destruct (AuthClient.is_token_valid self w).
  - injection Hrun as <- <- <-. reflexivity.
  - apply (refresh_loop_returns_stored net _ _ _ _ _ _ _ Hrun).
Qed.

Lemma get_token_frame_witness :
  exists r self' w',
    AuthClient.get_token flaky_token_endpoint (AuthClient.__init__ 3 1) start =
    (r, self', w') /\
    Z.of_nat (auth_calls start) <= Z.of_nat (auth_calls w')
      <= Z.of_nat (auth_calls start) + 3 + 1 /\
    api_calls w' = api_calls start /\
    AuthClient.max_retries self' = 3 /\
    AuthClient.retry_backoff self' = 1%Q /\
    (forall tok, r = Return tok -> tok = AuthClient._access_token self').
Proof.
  apply (get_token_frame flaky_token_endpoint (AuthClient.__init__ 3 1) start).
  - cbn. lia.
  - cbn. lra.
Defined.

Lemma range_nonpos (n : Z) : n <= 0 -> range n = [].
Proof.
  intros Hn. unfold range.
  replace (Z.to_nat n) with 0%nat by lia. reflexivity.
Qed.

(** X7. A negative max_retries leaves the loops nothing to iterate over:
    _refresh_token and _post raise the RuntimeError that follows the loop
    ("should not reach here") without sending any request, and _post does
    not even create its HTTP client or ask for a token. *)
Theorem negative_max_retries_sends_nothing (net : network)
    (a : AuthClient.t) (c : client.InsightsClient.t) (w : world) :
  (AuthClient.max_retries a < 0 ->
   AuthClient._refresh_token net a w =
   (Raise (RuntimeError "Token refresh failed unexpectedly"), a, w)) /\
  (client.InsightsClient.max_retries c < 0 ->
   client.InsightsClient._post net c w =
   (Raise (RuntimeError "API request failed unexpectedly"), c, w)).
Proof.
  split; intros Hn.
  - unfold AuthClient._refresh_token. rewrite range_nonpos by lia. reflexivity.
  - unfold client.InsightsClient._post. rewrite range_nonpos by lia.
    reflexivity.
Qed.

Lemma negative_max_retries_sends_nothing_witness :
  AuthClient._refresh_token (servers healthy_token (status 200))
    (AuthClient.__init__ (-1) 1) start =
  (Raise (RuntimeError "Token refresh failed unexpectedly"),
   AuthClient.__init__ (-1) 1, start) /\
  client.InsightsClient._post (servers healthy_token (status 200))
    (client.InsightsClient.__init__ (-2) 1) start =
  (Raise (RuntimeError "API request failed unexpectedly"),
   client.InsightsClient.__init__ (-2) 1, start).
Proof.
  split.
  - apply (proj1 (negative_max_retries_sends_nothing
                    (servers healthy_token (status 200))
                    (AuthClient.__init__ (-1) 1)
                    (client.InsightsClient.__init__ (-2) 1) start)).
    cbn. lia.
  - apply (proj2 (negative_max_retries_sends_nothing
                    (servers healthy_token (status 200))
                    (AuthClient.__init__ (-1) 1)
                    (client.InsightsClient.__init__ (-2) 1) start)).
    cbn. lia.
Defined.

Lemma backoff_delay_negative (rb : Q) (attempt : Z) :
  (rb < 0)%Q -> 0 <= attempt -> Qltb (backoff_delay rb attempt) 0 = true.
Proof.
  intros Hrb Ha. apply Qltb_lt. unfold backoff_delay, Qlt in *. cbn in *.
  pose proof (Z.pow_pos_nonneg 2 attempt ltac:(lia) Ha). nia.
Qed.





(** * Further properties of the request executor *)

(** A reply that is not retryable ends [_post] with [final_result]. *)
Lemma post_step_final (net : network) (attempt : Z) (rest : list Z)
    (last : option exn) (self : client.InsightsClient.t) (w : world)
    (tok : json) (a1 : AuthClient.t) (w1 : world) :
  AuthClient.get_token net (client.InsightsClient._auth self) w =
  (Return tok, a1, w1) ->
  retryable_reply (fst (post_api net tok w1)) = false ->
  client.InsightsClient._post_loop net (attempt :: rest) last self w =
  (final_result (fst (post_api net tok w1)),
   client.InsightsClient.set_auth a1 (client.InsightsClient._get_client self),
   snd (post_api net tok w1)).
Proof.
  intros Htok Hr.
  cbn [client.InsightsClient._post_loop].
  rewrite (post_try_unfold net attempt self w tok a1 w1 Htok).
  destruct (fst (post_api net tok w1)) as [response|e];
    cbn [retryable_reply final_result] in *.
  - rewrite Hr. cbn [andb]. unfold raise_for_status, response_json.
    destruct (is_success (status_code response)); [|reflexivity].
    destruct (body response); reflexivity.
  - rewrite Hr. reflexivity.
Qed.

Lemma post_loop_recover (net : network) (N : Z) (rb : Q) (Na : Z) (rba : Q)
    (k len a : nat) (last : option exn) (self : client.InsightsClient.t)
    (w : world) (r : reply) :
  (0 <= rb)%Q ->
  0 <= Na ->
  (forall i, issues_token (outcome (auth_server net i)) = true) ->
  configured N rb Na rba self ->
  (k <= len)%nat ->
  Z.of_nat (a + S len) = N + 1 ->
  (forall i tok, (i < k)%nat ->
     retryable_reply (outcome (api_server net (api_calls w + i) tok)) = true) ->
  (forall tok, outcome (api_server net (api_calls w + k) tok) = r) ->
  retryable_reply r = false ->
  exists self' w',
    client.InsightsClient._post_loop net (attempts_from a (S len)) last self w =
    (final_result r, self', w') /\
    api_calls w' = (api_calls w + S k)%nat /\
    slept w' = slept w ++ map (backoff_delay rb) (attempts_from a k).
Proof.
  intros Hrb HNa Hhealthy. revert len a last self w.
  induction k as [|k IH]; intros len a last self w Hcfg Hk Hn Hall Hreply Hr;
    pose proof Hcfg as (H1 & H2 & H3 & H4);
    destruct (get_token_healthy net (client.InsightsClient._auth self) w Hhealthy)
      as (tok & a1 & w1 & Htok & Hb1 & Hc1 & Hn1 & Hn2); try lia;
    destruct (post_api_fields net tok w1) as (_ & Hb2 & Hc2).
  - rewrite attempts_from_S.
    assert (Hfst : fst (post_api net tok w1) = r).
    { cbn. rewrite Hb1, <- (Hreply tok). f_equal. f_equal. lia. }
    rewrite (post_step_final net _ _ _ self w tok a1 w1 Htok)
      by (rewrite Hfst; exact Hr).
    rewrite Hfst. do 2 eexists. split; [reflexivity|].
    cbn [attempts_from seq map]. rewrite app_nil_r.
    split; [lia|congruence].
  - destruct len as [|len]; [lia|]. rewrite attempts_from_S.
    pose proof (Hall 0%nat tok (Nat.lt_0_succ _)) as H0.
    rewrite Nat.add_0_r, <- Hb1 in H0.
    rewrite (post_step_retry net _ _ _ _ _ _ _ _ Htok)
      by (cbn; auto; try lia; rewrite H2; exact Hrb).
    rewrite H2.
    set (d := backoff_delay rb (Z.of_nat a)).
    set (w2 := record_sleep d (advance d (snd (post_api net tok w1)))).
    assert (Hw2 : api_calls w2 = S (api_calls w) /\ slept w2 = slept w ++ [d]).
    { unfold w2. cbn. split; congruence. }
    destruct Hw2 as (Hb3 & Hc3).
    edestruct (IH len (S a)) with (w := w2) as (self' & w' & Hrun & Hr1 & Hr2).
    + apply (configured_next N rb Na rba self a1 Hcfg Hn1 Hn2).
    + lia.
    + lia.
    + intros i tok' Hi. rewrite Hb3.
      replace (S (api_calls w) + i)%nat with (api_calls w + S i)%nat by lia.
      apply Hall. lia.
    + intros tok'. rewrite Hb3.
      replace (S (api_calls w) + k)%nat with (api_calls w + S k)%nat by lia.
      apply Hreply.
    + exact Hr.
    + exists self', w'. split; [exact Hrun|].
      rewrite Hr1, Hr2, Hb3, Hc3, <- app_assoc, (attempts_from_S a k).
      split; [lia|reflexivity].
Qed.



(** X11. With a valid token cached, a request that gets a reply which is
    not retryable costs no token traffic at all: _post sends the cached
    token in its one request, ends with that reply (the JSON body of a 2xx
    response, else the error), and leaves the auth client as it was. *)
Theorem post_uses_cached_token (net : network)
    (self : client.InsightsClient.t) (w : world) :
  0 <= client.InsightsClient.max_retries self ->
  AuthClient.is_token_valid (client.InsightsClient._auth self) w = true ->
  retryable_reply
    (outcome (api_server net (api_calls w)
                (AuthClient._access_token (client.InsightsClient._auth self))))
  = false ->
  exists self' w',
    client.InsightsClient._post net self w =
    (final_result
       (outcome (api_server net (api_calls w)
                   (AuthClient._access_token (client.InsightsClient._auth self)))),
     self', w') /\
    client.InsightsClient._auth self' = client.InsightsClient._auth self /\
    auth_calls w' = auth_calls w /\
    api_calls w' = S (api_calls w) /\
    slept w' = slept w.
Proof.
  intros HN Hvalid Hr.
  pose proof (get_token_cached net _ w Hvalid) as Htok.
  unfold client.InsightsClient._post. rewrite range_succ by exact HN.
  rewrite attempts_from_S.
  rewrite (post_step_final net _ _ _ self w _ _ w Htok) by exact Hr.
  do 2 eexists. split; [reflexivity|]. cbn. auto.
Qed.

Lemma post_uses_cached_token_witness :
  exists self' w',
    client.InsightsClient._post (servers (status 503) (status 404))
      (client.InsightsClient.set_auth (cached 3 (JStr "T0") 5000)
         (client.InsightsClient.__init__ 3 1)) start =
    (Raise (HTTPStatusError 404), self', w') /\
    client.InsightsClient._auth self' = cached 3 (JStr "T0") 5000 /\
    auth_calls w' = 0%nat /\
    api_calls w' = 1%nat /\
    slept w' = [].
Proof.
  apply (post_uses_cached_token (servers (status 503) (status 404))
           (client.InsightsClient.set_auth (cached 3 (JStr "T0") 5000)
              (client.InsightsClient.__init__ 3 1)) start).
  - cbn. lia.
  - vm_compute. reflexivity.
  - reflexivity.
Defined.

Lemma get_client_created (self : client.InsightsClient.t) :
  client.InsightsClient._client (client.InsightsClient._get_client self) = true.
Proof.
  unfold client.InsightsClient._get_client.
  destruct (client.InsightsClient._client self) eqn:E; [exact E|reflexivity].
Qed.

Lemma post_try_client (net : network) (attempt : Z)
    (self : client.InsightsClient.t) (w : world) :
  client.InsightsClient._client
    (snd (fst (client.InsightsClient._post_try net attempt self w))) = true.
Proof.
  pose proof (get_client_created self) as Hc.
  unfold client.InsightsClient._post_try, client.InsightsClient._get_headers.
  destruct (AuthClient.get_token net _ w) as [[rt a1] w1].
  destruct rt as [tok|e]; [|exact Hc].
  destruct (post_api net tok w1) as [r w2].
  destruct r as [response|e]; [|exact Hc].
  repeat break_match; exact Hc.
Qed.

Lemma post_loop_invariants (net : network) (N : Z) (rb : Q) (Na : Z) (rba : Q)
    (attempts : list Z) (last : option exn) (self : client.InsightsClient.t)
    (w : world) :
  configured N rb Na rba self ->
  client.InsightsClient._client self = true \/ attempts <> [] ->
  configured N rb Na rba
    (snd (fst (client.InsightsClient._post_loop net attempts last self w))) /\
  client.InsightsClient._client
    (snd (fst (client.InsightsClient._post_loop net attempts last self w))) = true.
Proof.
  revert last self w.
  induction attempts as [|attempt attempts IH]; intros last self w Hcfg Hcl.
  - destruct Hcl as [Hcl|Hcl]; [|congruence].
    cbn. destruct last; cbn; auto.
  - cbn [client.InsightsClient._post_loop].
    destruct (post_try_settings net N rb Na rba attempt self w Hcfg) as (Hcfg1 & _).
    pose proof (post_try_client net attempt self w) as Hc1.
    destruct (client.InsightsClient._post_try net attempt self w)
      as [[[|v|e] self1] w1]; cbn [fst snd] in *.
    + apply IH; auto.
    + auto.
    + destruct (RETRYABLE_EXCEPTIONS e); [|cbn; auto].
      destruct (attempt <? client.InsightsClient.max_retries self1); [|cbn; auto].
      destruct (time_sleep _ w1) as [[u|e'] w2]; [|cbn; auto].
      apply IH; auto.
Qed.

(** X12. Life cycle of the HTTP client: whatever happens to the request,
    after _post (with max_retries >= 0) the lazily created HTTP client
    exists and the retry settings of the client and of its auth client are
    unchanged; close releases the HTTP client, is idempotent, and leaves the
    auth client with its cached token alone; _get_client after close creates
    the client again. *)
Theorem post_then_close (net : network) (N : Z) (rb : Q) (Na : Z) (rba : Q)
    (self : client.InsightsClient.t) (w : world) :
  0 <= N ->
  configured N rb Na rba self ->
  exists r self' w',
    client.InsightsClient._post net self w = (r, self', w') /\
    client.InsightsClient._client self' = true /\
    configured N rb Na rba self' /\
    client.InsightsClient._client (client.InsightsClient.close self') = false /\
    client.InsightsClient._auth (client.InsightsClient.close self') =
    client.InsightsClient._auth self' /\
    client.InsightsClient.close (client.InsightsClient.close self') =
    client.InsightsClient.close self' /\
    client.InsightsClient._get_client (client.InsightsClient.close self') = self'.
Proof.
  intros HN Hcfg. pose proof Hcfg as (Hn & _).
  destruct (client.InsightsClient._post net self w) as [[r self'] w'] eqn:Hrun.
  exists r, self', w'. split; [reflexivity|].
  unfold client.InsightsClient._post in Hrun.
  rewrite Hn, range_succ in Hrun by exact HN.
  destruct (post_loop_invariants net N rb Na rba
              (attempts_from 0 (S (Z.to_nat N))) None self w Hcfg)
    as (Hcfg' & Hcl); [right; discriminate|].
  rewrite Hrun in Hcfg', Hcl. cbn [fst snd] in Hcfg', Hcl.
  split; [exact Hcl|]. split; [exact Hcfg'|].
  unfold client.InsightsClient.close, client.InsightsClient._get_client.
  rewrite Hcl. cbn. repeat split.
  destruct self' as [n b a c]. cbn in *. subst c. reflexivity.
Qed.

Lemma post_then_close_witness :
  exists r self' w',
    client.InsightsClient._post (servers healthy_token (status 404))
      (client.InsightsClient.__init__ 3 1) start = (r, self', w') /\
    client.InsightsClient._client self' = true /\
    configured 3 1 3 1 self' /\
    client.InsightsClient._client (client.InsightsClient.close self') = false /\
    client.InsightsClient._auth (client.InsightsClient.close self') =
    client.InsightsClient._auth self' /\
    client.InsightsClient.close (client.InsightsClient.close self') =
    client.InsightsClient.close self' /\
    client.InsightsClient._get_client (client.InsightsClient.close self') = self'.
Proof.
  apply (post_then_close (servers healthy_token (status 404)) 3 1 3 1
           (client.InsightsClient.__init__ 3 1) start).
  - lia.
  - repeat split.
Defined.

(** * URLs and request bodies *)

Lemma rstrip_no_trailing (c : ascii) (s t : string) :
  requests.rstrip c s <> (t ++ String c EmptyString)%string.
Proof.
  revert t. induction s as [|x s IH]; intros t; cbn.
  - destruct t; discriminate.
  - destruct (requests.rstrip c s) as [|y r] eqn:Hr.
    + destruct (Ascii.eqb_spec x c) as [->|Hx].
      * destruct t; discriminate.
      * destruct t as [|z t]; cbn; [congruence|].
        destruct t; discriminate.
    + destruct t as [|z t]; cbn; [discriminate|].
      intros [= -> H]. exact (IH t H).
Qed.

Lemma rstrip_app (c : ascii) (s : string) :
  requests.rstrip c (s ++ String c EmptyString) = requests.rstrip c s.
Proof.
  induction s as [|x s IH]; cbn.
  - rewrite Ascii.eqb_refl. reflexivity.
  - rewrite IH. reflexivity.
Qed.

Lemma rstrip_fixed (c : ascii) (s : string) :
  (forall t, s <> (t ++ String c EmptyString)%string) ->
  requests.rstrip c s = s.
Proof.
  induction s as [|x s IH]; intros Hs; cbn; [reflexivity|].
  rewrite IH.
  - destruct s as [|y s]; [|reflexivity].
    destruct (Ascii.eqb_spec x c) as [->|Hx]; [|reflexivity].
    exfalso. apply (Hs EmptyString). reflexivity.
  - intros t ->. apply (Hs (String x t)). reflexivity.
Qed.



Lemma fold_left_append_rules (fs : list models.FilterRule) (rules : list json) :
  fold_left (fun rules f => rules ++ [requests.rule_dict f]) fs rules =
  rules ++ map requests.rule_dict fs.
Proof.
  revert rules. induction fs as [|f fs IH]; intros rules; cbn.
  - now rewrite app_nil_r.
  - rewrite IH, <- app_assoc. reflexivity.
Qed.

(** X14. The request body _build_query_body builds: its only key is
    "filter", and the rules under it are the time rule (event_time,
    last_n_hours, [hours]) followed by one rule per filter, in the order of
    the filters; so there is one rule more than there are filters, the time
    rule is always the first, and None and the empty list give the same
    body. *)
Theorem build_query_body_rules (hours : Z)
    (filters : option (list models.FilterRule)) :
  let fs := match filters with Some fs => fs | None => [] end in
  let time_rule :=
    JDict [("property"%string, JStr "event_time");
           ("operator"%string, JStr "last_n_hours");
           ("values"%string, JList [JInt hours])] in
  requests._build_query_body hours filters =
  JDict [("filter"%string,
          JDict [("rules"%string,
                  JList (time_rule :: map requests.rule_dict fs))])] /\
  body_rules (requests._build_query_body hours filters) =
  Return (JList (time_rule :: map requests.rule_dict fs)) /\
  List.length (time_rule :: map requests.rule_dict fs) = S (List.length fs) /\
  requests._build_query_body hours None =
  requests._build_query_body hours (Some []).
Proof.
  cbv zeta.
  assert (H : requests._build_query_body hours filters =
              JDict [("filter"%string,
                      JDict [("rules"%string,
                              JList (JDict [("property"%string, JStr "event_time");
                                            ("operator"%string, JStr "last_n_hours");
                                            ("values"%string, JList [JInt hours])]
                                     :: map requests.rule_dict
                                          match filters with
                                          | Some fs => fs | None => [] end))])]).
  { unfold requests._build_query_body.
    destruct filters as [[|f fs]|]; try reflexivity.
    rewrite fold_left_append_rules. reflexivity. }
  split; [exact H|]. split; [rewrite H; reflexivity|].
  split; [cbn; now rewrite length_map|reflexivity].
Qed.

(** X15. How an operator reaches the wire: a rule holding an Operator
    member and a rule holding the value of that member as a plain string
    give the same rule in the body; the fifteen members have fifteen
    different values, so the body tells the operators apart; and the rule
    client.filter builds serialises to its property, the value of its
    operator and its values. *)
Theorem operator_serialisation (p : string) (op op' : models.Operator)
    (vs : list json) :
  requests.rule_dict
    {| models.property := p; models.operator := models.Member op;
       models.values := vs |} =
  requests.rule_dict
    {| models.property := p;
       models.operator := models.Plain (models.Operator_value op);
       models.values := vs |} /\
  requests.rule_dict (requests.filter p op vs) =
  JDict [("property"%string, JStr p);
         ("operator"%string, JStr (models.Operator_value op));
         ("values"%string, JList vs)] /\
  (models.Operator_value op = models.Operator_value op' -> op = op') /\
  (requests.rule_dict (requests.filter p op vs) =
   requests.rule_dict (requests.filter p op' vs) -> op = op').
Proof.
  assert (Hinj : models.Operator_value op = models.Operator_value op' -> op = op')
    by (destruct op, op'; cbn; intros H; try reflexivity; discriminate H).
  repeat split; auto.
  cbn. intros [= H]. auto.
Qed.

Lemma operator_serialisation_witness :
  models.IN = models.IN.
Proof.
  apply (proj1 (proj2 (proj2
           (operator_serialisation "username" models.IN models.IN [])))).
  reflexivity.
Defined.

(** X16. The body of search_sites: the search term is added under "search"
    to the body _build_query_body gives, which loses nothing: the rules are
    those of _build_query_body, and the body has the two keys "filter" and
    "search", in this order. *)
Theorem search_sites_body_keys (search_term : string) (hours : Z)
    (filters : option (list models.FilterRule)) :
  exists body,
    requests.search_sites_body search_term hours filters = Return body /\
    getitem body "search" = Return (JStr search_term) /\
    getitem body "filter" =
    getitem (requests._build_query_body hours filters) "filter" /\
    body_rules body = body_rules (requests._build_query_body hours filters) /\
    exists f, body = JDict [("filter"%string, f); ("search"%string, JStr search_term)].
Proof.
  destruct (build_query_body_rules hours filters) as (H & _). cbv zeta in H.
  unfold requests.search_sites_body. rewrite H. cbn.
  eexists. split; [reflexivity|]. repeat split. eexists. reflexivity.
Qed.

Lemma add_filter_rules (q : models.QueryRequest) (p : string)
    (op : models.Operator) (vs : list json) :
  request_rules (models.add_filter q p op vs) =
  request_rules q ++ [models.new_FilterRule p op vs] /\
  models.filter (models.add_filter q p op vs) <> None.
Proof.
  unfold models.add_filter, request_rules.
  destruct (models.filter q) as [f|] eqn:Hq; cbn; rewrite ?Hq; cbn;
    (split; [reflexivity|discriminate]).
Qed.

Lemma add_filters_rules (q : models.QueryRequest)
    (specs : list (string * models.Operator * list json)) :
  request_rules (add_filters q specs) =
  request_rules q ++
  map (fun '(p, op, vs) => models.new_FilterRule p op vs) specs.
Proof.
  revert q. induction specs as [|[[p op] vs] specs IH]; intros q; cbn.
  - now rewrite app_nil_r.
  - unfold add_filters in IH. rewrite IH.
    rewrite (proj1 (add_filter_rules q p op vs)), <- app_assoc. reflexivity.
Qed.

(** X17. QueryRequest as a builder: add_filter and add_time_filter create
    the filter when there is none and append exactly one rule, keeping the
    rules already there in their order; add_time_filter(hours) is
    add_filter("event_time", LAST_N_HOURS, [hours]); and a request built by
    add_time_filter followed by a chain of add_filter calls holds the very
    rules that _build_query_body puts into the body for the same hours and
    the same filters. *)
Theorem query_request_builder (q : models.QueryRequest) (hours : Z)
    (p : string) (op : models.Operator) (vs : list json)
    (specs : list (string * models.Operator * list json)) :
  request_rules (models.add_filter q p op vs) =
  request_rules q ++ [models.new_FilterRule p op vs] /\
  models.filter (models.add_filter q p op vs) <> None /\
  models.add_time_filter q hours =
  models.add_filter q "event_time" models.LAST_N_HOURS [JInt hours] /\
  body_rules
    (requests._build_query_body hours
       (Some (map (fun '(p, op, vs) => requests.filter p op vs) specs))) =
  Return
    (JList
       (map requests.rule_dict
          (request_rules
             (add_filters
                (models.add_time_filter {| models.filter := None |} hours)
                specs)))).
Proof.
  destruct (add_filter_rules q p op vs) as (H1 & H2).
  split; [exact H1|]. split; [exact H2|]. split; [reflexivity|].
  destruct (build_query_body_rules hours
              (Some (map (fun '(p, op, vs) => requests.filter p op vs) specs)))
    as (_ & Hb & _).
  cbv zeta in Hb. rewrite Hb, add_filters_rules. cbn [request_rules].
  reflexivity.
Qed.

(** * Helpers of the command line *)



Lemma Qabs_div_1024 (v : Q) : (Qabs (v / 1024) == Qabs v / 1024)%Q.
Proof.
  unfold Qdiv. rewrite Qabs_Qmult. reflexivity.
Qed.

Lemma format_bytes_loop_spec (units : list string) (v : Q) :
  (1 <= Qabs v)%Q ->
  exists (k : nat) (v' : Q) (u : string),
    cli._format_bytes_loop units v = cli.Formatted v' u /\
    nth_error (units ++ ["PB"%string]) k = Some u /\
    (v' * inject_Z (1024 ^ Z.of_nat k) == v)%Q /\
    (1 <= Qabs v')%Q /\
    ((k < List.length units)%nat -> (Qabs v' < 1024)%Q).
Proof.
  revert v. induction units as [|unit units IH]; intros v Hv.
  - exists 0%nat, v, "PB"%string. cbn [cli._format_bytes_loop].
    repeat split; auto.
    + cbn. ring.
    + cbn. lia.
  - cbn [cli._format_bytes_loop].
    destruct (Qltb (Qabs v) 1024) eqn:Hlt.
    + exists 0%nat, v, unit. repeat split; auto.
      * cbn. ring.
      * intros _. now apply Qltb_lt.
    + apply Qltb_ge in Hlt.
      assert (Hv' : (1 <= Qabs (v / 1024))%Q).
      { rewrite Qabs_div_1024. apply Qle_shift_div_l; [reflexivity|].
        rewrite Qmult_1_l. exact Hlt. }
      destruct (IH (v / 1024)%Q Hv') as (k & v' & u & Hrun & Hnth & Heq & H1 & H2).
      exists (S k), v', u. repeat split; auto.
      * rewrite Nat2Z.inj_succ, Z.pow_succ_r by lia.
        rewrite inject_Z_mult.
        setoid_replace (v' * (inject_Z 1024 * inject_Z (1024 ^ Z.of_nat k)))%Q
          with ((v' * inject_Z (1024 ^ Z.of_nat k)) * 1024)%Q by ring.
        rewrite Heq. field.
      * intros Hk. apply H2. cbn in Hk. lia.
Qed.



(** 1536 bytes are 1.5 KB, and a count of 1024^5 needs the last unit. *)
Example format_bytes_examples :
  cli._format_bytes 1536 = cli.Formatted (1536 / 1024) "KB" /\
  cli._format_bytes (-5) = cli.Formatted (-5) "B" /\
  exists v, cli._format_bytes (1024 ^ 5) = cli.Formatted v "PB" /\ (v == 1)%Q.
Proof.
  split; [reflexivity|]. split; [reflexivity|].
  eexists. split; [reflexivity|]. reflexivity.
Qed.

Lemma or_else_given (i : string) (b : option string) :
  i <> EmptyString -> cli.or_else (Some i) b = Some i.
Proof.
  intros Hi. unfold cli.or_else.
  replace (String.eqb i EmptyString) with false
    by (symmetry; now apply String.eqb_neq).
  reflexivity.
Qed.

Lemma or_else_blank (a b : option string) :
  cli.truthy_str a = false -> cli.or_else a b = b.
Proof.
  unfold cli.truthy_str, cli.or_else. destruct a as [s|]; [|reflexivity].
  destruct (String.eqb s EmptyString); [reflexivity|discriminate].
Qed.

Lemma truthy_str_given (i : string) :
  i <> EmptyString -> cli.truthy_str (Some i) = true.
Proof.
  intros Hi. unfold cli.truthy_str.
  replace (String.eqb i EmptyString) with false
    by (symmetry; now apply String.eqb_neq).
  reflexivity.
Qed.



(** * Expiry and failures of the token, seen from the callers *)



(** X22. Validity only runs out: a token that is valid at some reading of
    the clock was valid at every earlier reading, and a manager whose token
    is not valid stays so at every later reading, until a refresh stores a
    new token. *)
Theorem token_validity_monotone (self : AuthClient.t) (w w' : world) :
  (now w <= now w')%Q ->
  (AuthClient.is_token_valid self w' = true ->
   AuthClient.is_token_valid self w = true) /\
  (AuthClient.is_token_valid self w = false ->
   AuthClient.is_token_valid self w' = false).
Proof.
  intros Hle.
  assert (H : AuthClient.is_token_valid self w' = true ->
              AuthClient.is_token_valid self w = true).
  { unfold AuthClient.is_token_valid.
    destruct (negb (truthy (AuthClient._access_token self))); [discriminate|].
    rewrite !Qltb_lt. intros Hlt. lra. }
  split; [exact H|].
  intros Hf. destruct (AuthClient.is_token_valid self w') eqn:E; [|reflexivity].
  rewrite (H eq_refl) in Hf. discriminate.
Qed.

Lemma token_validity_monotone_witness :
  (now start <= now (advance 5 start))%Q /\
  AuthClient.is_token_valid (cached 3 (JStr "T1") 1060) start = false /\
  AuthClient.is_token_valid (cached 3 (JStr "T1") 1060) (advance 5 start) = false.
Proof.
  assert (Hle : (now start <= now (advance 5 start))%Q)
    by (vm_compute; discriminate).
  assert (Hf : AuthClient.is_token_valid (cached 3 (JStr "T1") 1060) start = false)
    by reflexivity.
  split; [exact Hle|]. split; [exact Hf|].
  exact (proj2 (token_validity_monotone (cached 3 (JStr "T1") 1060) start
                  (advance 5 start) Hle) Hf).
Defined.

(** X23. A token that cannot be had stops the request: when no valid token
    is cached and the token endpoint answers with a failure that is not
    retryable (a 401, say, or a transport error outside
    RETRYABLE_EXCEPTIONS), _post raises that error after the one token
    request, sends the resource server nothing, and does not sleep. *)
Theorem post_aborts_on_token_failure (net : network)
    (self : client.InsightsClient.t) (w : world) :
  0 <= client.InsightsClient.max_retries self ->
  0 <= AuthClient.max_retries (client.InsightsClient._auth self) ->
  AuthClient.is_token_valid (client.InsightsClient._auth self) w = false ->
  retryable_reply (outcome (auth_server net (auth_calls w))) = false ->
  match outcome (auth_server net (auth_calls w)) with
  | Fails _ => True
  | Responds response => is_success (status_code response) = false
  end ->
  exists self' w',
    client.InsightsClient._post net self w =
    (Raise (terminal_error (outcome (auth_server net (auth_calls w)))),
     self', w') /\
    client.InsightsClient._auth self' = client.InsightsClient._auth self /\
    auth_calls w' = S (auth_calls w) /\
    api_calls w' = api_calls w /\
    slept w' = slept w.
Proof.
  intros HN HNa Hinvalid Hr Hfail.
  destruct (refresh_step_other_failure net (Z.of_nat 0)
              (attempts_from 1 (Z.to_nat
                 (AuthClient.max_retries (client.InsightsClient._auth self))))
              None (client.InsightsClient._auth self) w Hr Hfail)
    as (w1 & Hrun & Ha & Hc).
  assert (Htok : AuthClient.get_token net (client.InsightsClient._auth self) w =
                 (Raise (terminal_error (outcome (auth_server net (auth_calls w)))),
                  client.InsightsClient._auth self, w1)).
  { unfold AuthClient.get_token. rewrite Hinvalid.
    unfold AuthClient._refresh_token. rewrite range_succ by exact HNa.
    rewrite attempts_from_S. exact Hrun. }
  assert (Hnr : RETRYABLE_EXCEPTIONS
                  (terminal_error (outcome (auth_server net (auth_calls w)))) = false).
  { destruct (outcome (auth_server net (auth_calls w))); cbn in *; auto. }
  pose proof (get_token_api_calls net (client.InsightsClient._auth self) w) as Hapi.
  rewrite Htok in Hapi. cbn [snd] in Hapi.
  unfold client.InsightsClient._post. rewrite range_succ by exact HN.
  rewrite attempts_from_S.
  rewrite (post_step_token_raise net _ _ _ self w _ _ w1 Htok) by (left; exact Hnr).
  do 2 eexists. split; [reflexivity|].
  destruct (get_client_fields self) as (_ & _ & Hauth).
  cbn. auto.
Qed.

Lemma post_aborts_on_token_failure_witness :
  exists self' w',
    client.InsightsClient._post (servers (status 401) (status 200))
      (client.InsightsClient.__init__ 3 1) start =
    (Raise (HTTPStatusError 401), self', w') /\
    client.InsightsClient._auth self' =
    client.InsightsClient._auth (client.InsightsClient.__init__ 3 1) /\
    auth_calls w' = 1%nat /\
    api_calls w' = 0%nat /\
    slept w' = [].
Proof.
  apply (post_aborts_on_token_failure (servers (status 401) (status 200))
           (client.InsightsClient.__init__ 3 1) start).
  - cbn. lia.
  - cbn. lia.
  - reflexivity.
  - reflexivity.
  - reflexivity.
Defined.
